(** * Type stub writer (pyright, [server/src/analyzer/typeStubWriter.ts])

    A shallow embedding of [TypeStubWriter]: the parse-tree walker that
    renders the public declarations of an analysed Python file as a type
    stub.  The writer object is an explicit record threaded through every
    method; the methods keep the names they have in the source. *)

From Stdlib Require Import String Ascii List ZArith Bool Lia.
Import ListNotations.

Open Scope list_scope.
Open Scope string_scope.
Open Scope Z_scope.

(** ** Parse nodes

    Only the fields the writer reads are kept.  [NameNode] stands for
    [node.nameToken.value]. *)

Record NameNode : Type := { nameToken_value : string }.

Inductive ArgumentCategory : Type :=
| ArgSimple | UnpackedList | UnpackedDictionary.

Inductive ParameterCategory : Type :=
| ParamSimple | VarArgList | VarArgDictionary.

Record ModuleNameNode : Type := {
  leadingDots : Z;
  nameParts : list NameNode
}.

Record ImportAsNode : Type := {
  imp_module : ModuleNameNode;
  imp_alias : option NameNode
}.

Record ImportFromAsNode : Type := {
  impfrom_name : NameNode;
  impfrom_alias : option NameNode
}.

Record ImportNode : Type := { imp_list : list ImportAsNode }.

Record ImportFromNode : Type := {
  from_module : ModuleNameNode;
  isWildcardImport : bool;
  from_imports : list ImportFromAsNode
}.

(** ** Identifiers and line shapes

    A name token holds a Python identifier: letters, digits, underscores and
    characters outside ASCII. *)

Definition isIdentifierChar (c : ascii) : bool :=
  let n := nat_of_ascii c in
  ((48 <=? n) && (n <=? 57) || (65 <=? n) && (n <=? 90)
   || (97 <=? n) && (n <=? 122) || (n =? 95) || (128 <=? n))%nat.

Fixpoint isIdentifier (s : string) : bool :=
  match s with
  | EmptyString => true
  | String c rest => isIdentifierChar c && isIdentifier rest
  end.

Fixpoint startsWith (pre s : string) : bool :=
  match pre, s with
  | EmptyString, _ => true
  | String a pre', String b s' => Ascii.eqb a b && startsWith pre' s'
  | String _ _, EmptyString => false
  end.

(** A line is the header of a class called [name] when it reads
    [class <name>] followed by the opening parenthesis of the argument list
    or by the colon; it is the header of a function called [name] when it
    reads [def <name>(], after [async ] or not. *)
Definition isClassDeclarationOf (name line : string) : bool :=
  startsWith ("class " ++ name ++ "(") line
  || startsWith ("class " ++ name ++ ":") line.

Definition isFunctionDeclarationOf (name line : string) : bool :=
  startsWith ("def " ++ name ++ "(") line
  || startsWith ("async def " ++ name ++ "(") line.

(** ** Rendering of logged lines *)

Fixpoint indentText (n : nat) (tab : string) : string :=
  match n with
  | O => ""
  | S k => tab ++ indentText k tab
  end.

(** The text one call of [_emitLine] appends. *)
Definition lineText (tab lineEnd : string) (entry : Z * string) : string :=
  indentText (Z.to_nat (fst entry)) tab ++ (snd entry ++ lineEnd).

Definition renderLog (tab lineEnd : string) (log : list (Z * string)) : string :=
  fold_right (fun entry rest => lineText tab lineEnd entry ++ rest) "" log.

(** ** The file system

    [fs.writeFileSync] is Node's.  The model keeps what the writer can
    observe of it: a path names the file it resolves to (two spellings may
    name one file), the call throws when the path cannot be opened for
    writing (a missing directory, a permission, a directory in the way), and
    otherwise it replaces the whole content of that file. *)
Record FileSystem : Type := {
  resolve : string -> string;
  canWrite : string -> bool;
  stored : string -> option string
}.

Definition readFile (fs : FileSystem) (path : string) : option string :=
  stored fs (resolve fs path).

(** [None] is the exception; nothing is stored then. *)
Definition writeFileSync (path data : string) (fs : FileSystem)
  : option FileSystem :=
  if canWrite fs path then
    Some {| resolve := resolve fs;
            canWrite := canWrite fs;
            stored := fun file =>
                        if String.eqb file (resolve fs path) then Some data
                        else stored fs file |}
  else None.

Section Nodes.

(** Expression subtrees are opaque to the writer: it only ever hands them
    to [ParseTreeUtils.printExpression]. *)
Variable ExpressionNode : Type.

Record ArgumentNode : Type := {
  argumentCategory : ArgumentCategory;
  arg_name : option NameNode;
  valueExpression : ExpressionNode
}.

Record ParameterNode : Type := {
  category : ParameterCategory;
  param_name : option NameNode;
  typeAnnotation : option ExpressionNode;
  defaultValue : option ExpressionNode
}.

(** [decorator.arguments] is [undefined] for a decorator without call
    syntax; an empty array is still truthy in the source. *)
Record DecoratorNode : Type := {
  leftExpression : ExpressionNode;
  dec_arguments : option (list ArgumentNode)
}.

Record ClassNode : Type := {
  cls_name : NameNode;
  cls_decorators : list DecoratorNode;
  cls_arguments : list ArgumentNode
}.

Record FunctionNode : Type := {
  fn_name : NameNode;
  isAsync : bool;
  fn_decorators : list DecoratorNode;
  fn_parameters : list ParameterNode;
  returnTypeAnnotation : option ExpressionNode
}.

(** The statement-level tree.  A class or function node carries its own
    fields and, separately, the statements of its suite.  [OtherN] stands
    for a node of any kind the writer has no visitor for (the module node,
    a statement list, a compound or simple statement); its [children] are
    the statement-level nodes the walker reaches through it, none where the
    walker does not enter.  The expression-level children of a class or
    function (decorators, arguments, parameters, annotations) contain no
    class, function or import node, so walking them reaches no visitor of
    the writer and they are left out of the child lists. *)
Unset Elimination Schemes.
Inductive ParseNode : Type :=
| ClassN (node : ClassNode) (suite : list ParseNode)
| FunctionN (node : FunctionNode) (suite : list ParseNode)
| ImportN (node : ImportNode)
| ImportFromN (node : ImportFromNode)
| OtherN (children : list ParseNode).
Set Elimination Schemes.

Record ParseResults : Type := {
  parseTree : ParseNode;
  predominantLineEndSequence : string;
  predominantTabSequence : string
}.

(** [getParseResults()] is [undefined] for a file that was never parsed. *)
Record SourceFile : Type := { getParseResults : option ParseResults }.

(** ** The writer object

    The private fields of [TypeStubWriter].  Counters are JavaScript
    numbers that only ever see [++] and [--]; they are integers here.
    [emitLog] is a history variable that is not in the source: it records
    every call of [_emitLine] as the pair of the indentation in force and
    the [line] argument, so that statements about emitted lines need not
    re-parse [_typeStubText] (lemma [text_of_emitLog] ties the two). *)
Record TypeStubWriter : Type := {
  _typingsPath : string;
  _sourceFile : SourceFile;
  _indentAmount : Z;
  _typeStubText : string;
  _lineEnd : string;
  _tab : string;
  _classNestCount : Z;
  _functionNestCount : Z;
  _emittedSuite : bool;
  emitLog : list (Z * string)
}.

Definition set_indentAmount (v : Z) (w : TypeStubWriter) : TypeStubWriter :=
  {| _typingsPath := _typingsPath w; _sourceFile := _sourceFile w;
     _indentAmount := v; _typeStubText := _typeStubText w;
     _lineEnd := _lineEnd w; _tab := _tab w;
     _classNestCount := _classNestCount w;
     _functionNestCount := _functionNestCount w;
     _emittedSuite := _emittedSuite w; emitLog := emitLog w |}.

Definition set_formatting (lineEnd tab : string) (w : TypeStubWriter)
  : TypeStubWriter :=
  {| _typingsPath := _typingsPath w; _sourceFile := _sourceFile w;
     _indentAmount := _indentAmount w; _typeStubText := _typeStubText w;
     _lineEnd := lineEnd; _tab := tab;
     _classNestCount := _classNestCount w;
     _functionNestCount := _functionNestCount w;
     _emittedSuite := _emittedSuite w; emitLog := emitLog w |}.

Definition set_classNestCount (v : Z) (w : TypeStubWriter) : TypeStubWriter :=
  {| _typingsPath := _typingsPath w; _sourceFile := _sourceFile w;
     _indentAmount := _indentAmount w; _typeStubText := _typeStubText w;
     _lineEnd := _lineEnd w; _tab := _tab w;
     _classNestCount := v;
     _functionNestCount := _functionNestCount w;
     _emittedSuite := _emittedSuite w; emitLog := emitLog w |}.

Definition set_functionNestCount (v : Z) (w : TypeStubWriter)
  : TypeStubWriter :=
  {| _typingsPath := _typingsPath w; _sourceFile := _sourceFile w;
     _indentAmount := _indentAmount w; _typeStubText := _typeStubText w;
     _lineEnd := _lineEnd w; _tab := _tab w;
     _classNestCount := _classNestCount w;
     _functionNestCount := v;
     _emittedSuite := _emittedSuite w; emitLog := emitLog w |}.

Definition set_emittedSuite (v : bool) (w : TypeStubWriter) : TypeStubWriter :=
  {| _typingsPath := _typingsPath w; _sourceFile := _sourceFile w;
     _indentAmount := _indentAmount w; _typeStubText := _typeStubText w;
     _lineEnd := _lineEnd w; _tab := _tab w;
     _classNestCount := _classNestCount w;
     _functionNestCount := _functionNestCount w;
     _emittedSuite := v; emitLog := emitLog w |}.

(** The constructor: field initialisers of the class, then the two
    constructor parameters. *)
Definition newTypeStubWriter (typingsPath : string) (sourceFile : SourceFile)
  : TypeStubWriter :=
  {| _typingsPath := typingsPath; _sourceFile := sourceFile;
     _indentAmount := 0; _typeStubText := "";
     _lineEnd := String "010" ""; _tab := "    ";
     _classNestCount := 0; _functionNestCount := 0;
     _emittedSuite := false; emitLog := [] |}.

(** ** Collaborators *)

(** [ParseTreeUtils.printExpression] and the two classifiers of
    [SymbolUtils]; none of them is defined in this file of the source, so
    the writer is stated over any implementation of the three. *)
Class Collaborators : Type := {
  printExpression : ExpressionNode -> string;
  isPrivateName : string -> bool;
  isProtectedName : string -> bool
}.

Context {collaborators : Collaborators}.

(** ** Line emission *)

(** The [for] loop of [_emitLine]: [n] iterations of [text += tab]. *)
Fixpoint appendTabs (n : nat) (tab text : string) : string :=
  match n with
  | O => text
  | S k => appendTabs k tab (text ++ tab)
  end.

Definition _emitLine (line : string) (w : TypeStubWriter) : TypeStubWriter :=
  let text := appendTabs (Z.to_nat (_indentAmount w)) (_tab w) (_typeStubText w) in
  {| _typingsPath := _typingsPath w; _sourceFile := _sourceFile w;
     _indentAmount := _indentAmount w;
     _typeStubText := text ++ (line ++ _lineEnd w);
     _lineEnd := _lineEnd w; _tab := _tab w;
     _classNestCount := _classNestCount w;
     _functionNestCount := _functionNestCount w;
     _emittedSuite := _emittedSuite w;
     emitLog := (emitLog w ++ [(_indentAmount w, line)])%list |}.

Definition _increaseIndent (callback : TypeStubWriter -> TypeStubWriter)
    (w : TypeStubWriter) : TypeStubWriter :=
  let w := set_indentAmount (_indentAmount w + 1) w in
  let w := callback w in
  set_indentAmount (_indentAmount w - 1) w.

Definition _emitSuite (callback : TypeStubWriter -> TypeStubWriter)
    (w : TypeStubWriter) : TypeStubWriter :=
  _increaseIndent (fun w =>
    let prevEmittedSuite := _emittedSuite w in
    let w := set_emittedSuite false w in
    let w := callback w in
    let w := if negb (_emittedSuite w) then _emitLine "..." w else w in
    set_emittedSuite prevEmittedSuite w) w.

(** The literal of three double-quote characters (code 34). *)
Definition tripleQuote : string :=
  String "034" (String "034" (String "034" "")).

Definition _emitHeaderDocString (w : TypeStubWriter) : TypeStubWriter :=
  let w := _emitLine tripleQuote w in
  let w := _emitLine "This type stub file was generated by pyright." w in
  let w := _emitLine tripleQuote w in
  _emitLine "" w.

(** ** Renderers *)

Definition _printExpression (node : ExpressionNode) : string :=
  printExpression node.

(** The [for] loop of [_printModuleName]: [n] iterations of [line += '.']. *)
Fixpoint appendDots (n : nat) (line : string) : string :=
  match n with
  | O => line
  | S k => appendDots k (line ++ ".")
  end.

Definition _printModuleName (node : ModuleNameNode) : string :=
  let line := appendDots (Z.to_nat (leadingDots node)) "" in
  line ++ String.concat "." (map nameToken_value (nameParts node)).

Definition _printParameter (node : ParameterNode) : string :=
  let line := "" in
  let line :=
    match category node with
    | VarArgList => line ++ "*"
    | VarArgDictionary => line ++ "**"
    | ParamSimple => line
    end in
  let line :=
    match param_name node with
    | Some name => line ++ nameToken_value name
    | None => line
    end in
  let line :=
    match typeAnnotation node with
    | Some annotation => line ++ (": " ++ _printExpression annotation)
    | None => line
    end in
  let line :=
    match defaultValue node with
    | Some _ =>
        match typeAnnotation node with
        | Some _ => line ++ " = ..."
        | None => line ++ "=..."
        end
    | None => line
    end in
  line.

Definition _printArgument (node : ArgumentNode) : string :=
  let line := "" in
  let line :=
    match argumentCategory node with
    | UnpackedList => line ++ "*"
    | UnpackedDictionary => line ++ "**"
    | ArgSimple => line
    end in
  let line :=
    match arg_name node with
    | Some name => line ++ (nameToken_value name ++ "=")
    | None => line
    end in
  line ++ _printExpression (valueExpression node).

(** The line [_emitDecorators] builds for one decorator. *)
Definition decoratorLine (decorator : DecoratorNode) : string :=
  let line := "@" ++ _printExpression (leftExpression decorator) in
  match dec_arguments decorator with
  | Some args => line ++ ("(" ++ String.concat ", " (map _printArgument args) ++ ")")
  | None => line
  end.

(** [decorators.forEach(...)]: one [_emitLine] per decorator, in order. *)
Definition _emitDecorators (decorators : list DecoratorNode)
    (w : TypeStubWriter) : TypeStubWriter :=
  fold_left (fun w decorator => _emitLine (decoratorLine decorator) w)
            decorators w.

(** ** Visitors

    Each visitor returns the flag the walker reads (descend into the
    children or not) and the writer after the call.  [walkChildren] is
    the effect of [this.walkChildren(node)] on the writer. *)

(** The argument renderer written inline in [visitClass]. *)
Definition classArgument (arg : ArgumentNode) : string :=
  let argString := "" in
  let argString :=
    match arg_name arg with
    | Some name => nameToken_value name ++ "="
    | None => argString
    end in
  argString ++ _printExpression (valueExpression arg).

(** The header line [visitClass] builds. *)
Definition classLine (node : ClassNode) : string :=
  let className := nameToken_value (cls_name node) in
  let line := "class " ++ className in
  let line :=
    if (0 <? Z.of_nat (List.length (cls_arguments node)))
    then line ++ ("(" ++ String.concat ", " (map classArgument (cls_arguments node)) ++ ")")
    else line in
  line ++ ":".

Definition visitClass (walkChildren : TypeStubWriter -> TypeStubWriter)
    (node : ClassNode) (w : TypeStubWriter) : bool * TypeStubWriter :=
  let className := nameToken_value (cls_name node) in
  if negb (isProtectedName className) && negb (isPrivateName className) then
    let w := set_emittedSuite true w in
    let w := _emitDecorators (cls_decorators node) w in
    let w := _emitLine (classLine node) w in
    let w := _emitSuite (fun w =>
               let w := set_classNestCount (_classNestCount w + 1) w in
               let w := walkChildren w in
               set_classNestCount (_classNestCount w - 1) w) w in
    let w := _emitLine "" w in
    let w := _emitLine "" w in
    (false, w)
  else (false, w).

(** The header line [visitFunction] builds. *)
Definition functionLine (node : FunctionNode) : string :=
  let functionName := nameToken_value (fn_name node) in
  let line := if isAsync node then "async " else "" in
  let line := line ++ ("def " ++ functionName) in
  let line :=
    line ++ ("(" ++ String.concat ", " (map _printParameter (fn_parameters node)) ++ ")") in
  let line :=
    match returnTypeAnnotation node with
    | Some annotation => line ++ (" -> " ++ _printExpression annotation)
    | None => line
    end in
  line ++ ":".

Definition visitFunction (walkChildren : TypeStubWriter -> TypeStubWriter)
    (node : FunctionNode) (w : TypeStubWriter) : bool * TypeStubWriter :=
  let functionName := nameToken_value (fn_name node) in
  if (_functionNestCount w =? 0)
     && negb (isProtectedName functionName)
     && negb (isPrivateName functionName) then
    let w := set_emittedSuite true w in
    let w := _emitDecorators (fn_decorators node) w in
    let w := _emitLine (functionLine node) w in
    let w := _emitSuite (fun w =>
               let w := set_functionNestCount (_functionNestCount w + 1) w in
               let w := walkChildren w in
               set_functionNestCount (_functionNestCount w - 1) w) w in
    let w := _emitLine "" w in
    (false, w)
  else (false, w).

(** The arrow function [visitImport] maps over [node.list]. *)
Definition importAsText (imp : ImportAsNode) : string :=
  let impText := _printModuleName (imp_module imp) in
  match imp_alias imp with
  | Some alias => impText ++ (" as " ++ nameToken_value alias)
  | None => impText
  end.

Definition visitImport (node : ImportNode) (w : TypeStubWriter)
  : bool * TypeStubWriter :=
  if (0 <? _functionNestCount w) || (0 <? _classNestCount w) then (false, w)
  else
    let line := "import " in
    let line := line ++ String.concat ", " (map importAsText (imp_list node)) in
    let w := _emitLine line w in
    (false, w).

(** The arrow function [visitImportFrom] maps over [node.imports]. *)
Definition importFromAsText (imp : ImportFromAsNode) : string :=
  let impString := nameToken_value (impfrom_name imp) in
  match impfrom_alias imp with
  | Some alias => impString ++ (" as " ++ nameToken_value alias)
  | None => impString
  end.

Definition visitImportFrom (node : ImportFromNode) (w : TypeStubWriter)
  : bool * TypeStubWriter :=
  if (0 <? _functionNestCount w) || (0 <? _classNestCount w) then (false, w)
  else
    let line := ("from " ++ _printModuleName (from_module node)) ++ " import " in
    let line :=
      if isWildcardImport node then line ++ "*"
      else line ++ String.concat ", " (map importFromAsText (from_imports node)) in
    let w := _emitLine line w in
    (false, w).

(** ** The walker

    Modelled from the spec: [ParseTreeWalker] (the base class with [walk],
    [walkChildren] and the per-kind dispatch) is not in the source file.
    [walk] calls the visitor of the node's kind and descends into the
    children when the visitor returns [true]; a kind without a visitor in
    [TypeStubWriter] takes the default visitor, which returns [true]. *)
Fixpoint walk (node : ParseNode) (w : TypeStubWriter) {struct node}
  : TypeStubWriter :=
  match node with
  | ClassN c suite =>
      let walkChildren := fold_left (fun w child => walk child w) suite in
      let (descend, w) := visitClass walkChildren c w in
      if descend then walkChildren w else w
  | FunctionN f suite =>
      let walkChildren := fold_left (fun w child => walk child w) suite in
      let (descend, w) := visitFunction walkChildren f w in
      if descend then walkChildren w else w
  | ImportN i =>
      let (_, w) := visitImport i w in w
  | ImportFromN i =>
      let (_, w) := visitImportFrom i w in w
  | OtherN children =>
      fold_left (fun w child => walk child w) children w
  end.

Definition walkChildren (children : list ParseNode) (w : TypeStubWriter)
  : TypeStubWriter :=
  fold_left (fun w child => walk child w) children w.

(** ** The entry point *)

Definition _writeFile (w : TypeStubWriter) (fs : FileSystem)
  : option FileSystem :=
  writeFileSync (_typingsPath w) (_typeStubText w) fs.

(** [write()] returns [None] where the source throws before it has built
    anything: the non-null assertion on [getParseResults()] is erased at run
    time and the property access on [undefined] raises a [TypeError].
    Otherwise it returns the writer after the traversal and the outcome of
    [_writeFile]: the new file system, or [None] where [fs.writeFileSync]
    throws; the buffer is built by then and stays in the writer. *)
Definition write (w : TypeStubWriter) (fs : FileSystem)
  : option (TypeStubWriter * option FileSystem) :=
  match getParseResults (_sourceFile w) with
  | None => None
  | Some parseResults =>
      let w := set_formatting (predominantLineEndSequence parseResults)
                              (predominantTabSequence parseResults) w in
      let w := _emitHeaderDocString w in
      let w := walk (parseTree parseResults) w in
      Some (w, _writeFile w fs)
  end.

(** ** Vocabulary of the properties *)

Definition isPublicName (name : string) : bool :=
  negb (isProtectedName name) && negb (isPrivateName name).

(** A member of a class body that the writer filters out: a class or
    function with a private or protected name, an import (imports are only
    rendered at module scope), or any other statement all of whose children
    are filtered out. *)
Fixpoint isFilteredMember (node : ParseNode) : bool :=
  match node with
  | ClassN c _ => negb (isPublicName (nameToken_value (cls_name c)))
  | FunctionN f _ => negb (isPublicName (nameToken_value (fn_name f)))
  | ImportN _ => true
  | ImportFromN _ => true
  | OtherN children => forallb isFilteredMember children
  end.

(** The tree without its function definitions, at any depth. *)
Fixpoint eraseFunctions (node : ParseNode) : list ParseNode :=
  match node with
  | ClassN c suite => [ClassN c (flat_map eraseFunctions suite)]
  | FunctionN _ _ => []
  | ImportN i => [ImportN i]
  | ImportFromN i => [ImportFromN i]
  | OtherN children => [OtherN (flat_map eraseFunctions children)]
  end.

(** Every class and function name in the tree is an identifier. *)
Fixpoint namesAreIdentifiers (node : ParseNode) : bool :=
  match node with
  | ClassN c suite =>
      isIdentifier (nameToken_value (cls_name c))
      && forallb namesAreIdentifiers suite
  | FunctionN f suite =>
      isIdentifier (nameToken_value (fn_name f))
      && forallb namesAreIdentifiers suite
  | ImportN _ => true
  | ImportFromN _ => true
  | OtherN children => forallb namesAreIdentifiers children
  end.

(** The lines a list of decorators contributes at indentation [i]. *)
Definition decoratorLines (i : Z) (decorators : list DecoratorNode)
  : list (Z * string) :=
  map (fun d => (i, decoratorLine d)) decorators.

(** [w'] is [w] after some calls of [_emitLine] that logged [l]: the
    text grew by the rendering of [l], every logged line sits at the
    indentation of [w] or deeper, and the counters and the formatting are
    back to what they were. *)
Definition Appends (w w' : TypeStubWriter) (l : list (Z * string)) : Prop :=
  _typingsPath w' = _typingsPath w
  /\ _sourceFile w' = _sourceFile w
  /\ _lineEnd w' = _lineEnd w
  /\ _tab w' = _tab w
  /\ _indentAmount w' = _indentAmount w
  /\ _classNestCount w' = _classNestCount w
  /\ _functionNestCount w' = _functionNestCount w
  /\ emitLog w' = (emitLog w ++ l)%list
  /\ _typeStubText w' = _typeStubText w ++ renderLog (_tab w) (_lineEnd w) l
  /\ Forall (fun entry => _indentAmount w <= fst entry) l.

(** A traversal step: it appends [l], and the suite flag is either
    untouched or raised by a step that did emit. *)
Definition Emits (w w' : TypeStubWriter) (l : list (Z * string)) : Prop :=
  Appends w w' l
  /\ (_emittedSuite w' = _emittedSuite w
      \/ (_emittedSuite w' = true /\ l <> [])).

(** The shapes of the lines the writer can log. *)
Inductive EngineLine : string -> Prop :=
| LineBlank : EngineLine ""
| LinePlaceholder : EngineLine "..."
| LineQuotes : EngineLine tripleQuote
| LineBanner : EngineLine "This type stub file was generated by pyright."
| LineDecorator (d : DecoratorNode) : EngineLine (decoratorLine d)
| LineClass (c : ClassNode) :
    isPublicName (nameToken_value (cls_name c)) = true ->
    isIdentifier (nameToken_value (cls_name c)) = true ->
    EngineLine (classLine c)
| LineFunction (f : FunctionNode) :
    isPublicName (nameToken_value (fn_name f)) = true ->
    isIdentifier (nameToken_value (fn_name f)) = true ->
    EngineLine (functionLine f)
| LineImport (rest : string) : EngineLine ("import " ++ rest)
| LineImportFrom (rest : string) : EngineLine ("from " ++ rest).

(** The parameter with its default expression, when it has one, replaced
    by [e]; the function with every default replaced. *)
Definition replaceDefault (e : ExpressionNode) (p : ParameterNode)
  : ParameterNode :=
  {| category := category p; param_name := param_name p;
     typeAnnotation := typeAnnotation p;
     defaultValue := match defaultValue p with
                     | Some _ => Some e
                     | None => None
                     end |}.

Definition replaceDefaults (e : ExpressionNode) (f : FunctionNode)
  : FunctionNode :=
  {| fn_name := fn_name f; isAsync := isAsync f;
     fn_decorators := fn_decorators f;
     fn_parameters := map (replaceDefault e) (fn_parameters f);
     returnTypeAnnotation := returnTypeAnnotation f |}.

(** The writer with another destination path. *)
Definition set_typingsPath (path : string) (w : TypeStubWriter)
  : TypeStubWriter :=
  {| _typingsPath := path; _sourceFile := _sourceFile w;
     _indentAmount := _indentAmount w; _typeStubText := _typeStubText w;
     _lineEnd := _lineEnd w; _tab := _tab w;
     _classNestCount := _classNestCount w;
     _functionNestCount := _functionNestCount w;
     _emittedSuite := _emittedSuite w; emitLog := emitLog w |}.

End Nodes.

Arguments argumentCategory {ExpressionNode}.
Arguments arg_name {ExpressionNode}.
Arguments valueExpression {ExpressionNode}.
Arguments category {ExpressionNode}.
Arguments param_name {ExpressionNode}.
Arguments typeAnnotation {ExpressionNode}.
Arguments defaultValue {ExpressionNode}.
Arguments leftExpression {ExpressionNode}.
Arguments dec_arguments {ExpressionNode}.
Arguments cls_name {ExpressionNode}.
Arguments cls_decorators {ExpressionNode}.
Arguments cls_arguments {ExpressionNode}.
Arguments fn_name {ExpressionNode}.
Arguments isAsync {ExpressionNode}.
Arguments fn_decorators {ExpressionNode}.
Arguments fn_parameters {ExpressionNode}.
Arguments returnTypeAnnotation {ExpressionNode}.
Arguments ClassN {ExpressionNode}.
Arguments FunctionN {ExpressionNode}.
Arguments ImportN {ExpressionNode}.
Arguments ImportFromN {ExpressionNode}.
Arguments OtherN {ExpressionNode}.
Arguments parseTree {ExpressionNode}.
Arguments predominantLineEndSequence {ExpressionNode}.
Arguments predominantTabSequence {ExpressionNode}.
Arguments getParseResults {ExpressionNode}.
Arguments _typingsPath {ExpressionNode}.
Arguments _sourceFile {ExpressionNode}.
Arguments _indentAmount {ExpressionNode}.
Arguments _typeStubText {ExpressionNode}.
Arguments _lineEnd {ExpressionNode}.
Arguments _tab {ExpressionNode}.
Arguments _classNestCount {ExpressionNode}.
Arguments _functionNestCount {ExpressionNode}.
Arguments _emittedSuite {ExpressionNode}.
Arguments emitLog {ExpressionNode}.
Arguments set_indentAmount {ExpressionNode}.
Arguments set_formatting {ExpressionNode}.
Arguments set_classNestCount {ExpressionNode}.
Arguments set_functionNestCount {ExpressionNode}.
Arguments set_emittedSuite {ExpressionNode}.
Arguments set_typingsPath {ExpressionNode}.
Arguments newTypeStubWriter {ExpressionNode}.
Arguments _emitLine {ExpressionNode}.
Arguments _increaseIndent {ExpressionNode}.
Arguments _emitSuite {ExpressionNode}.
Arguments _emitHeaderDocString {ExpressionNode}.
Arguments _writeFile {ExpressionNode}.
Arguments _printExpression {ExpressionNode collaborators}.
Arguments _printParameter {ExpressionNode collaborators}.
Arguments _printArgument {ExpressionNode collaborators}.
Arguments decoratorLine {ExpressionNode collaborators}.
Arguments decoratorLines {ExpressionNode collaborators}.
Arguments _emitDecorators {ExpressionNode collaborators}.
Arguments classArgument {ExpressionNode collaborators}.
Arguments classLine {ExpressionNode collaborators}.
Arguments functionLine {ExpressionNode collaborators}.
Arguments visitClass {ExpressionNode collaborators}.
Arguments visitFunction {ExpressionNode collaborators}.
Arguments visitImport {ExpressionNode}.
Arguments visitImportFrom {ExpressionNode}.
Arguments walk {ExpressionNode collaborators}.
Arguments walkChildren {ExpressionNode collaborators}.
Arguments write {ExpressionNode collaborators}.
Arguments isFilteredMember {ExpressionNode collaborators}.
Arguments eraseFunctions {ExpressionNode}.
Arguments namesAreIdentifiers {ExpressionNode}.
Arguments replaceDefault {ExpressionNode}.
Arguments replaceDefaults {ExpressionNode}.
Arguments Appends {ExpressionNode}.
Arguments Emits {ExpressionNode}.
Arguments EngineLine {ExpressionNode collaborators}.
Arguments printExpression {ExpressionNode _}.
Arguments isPrivateName {ExpressionNode _}.
Arguments isProtectedName {ExpressionNode _}.
Arguments isPublicName {ExpressionNode collaborators}.

(** ** Sample collaborators and inputs

    Modelled from the spec: [SymbolUtils] is not in the source file; the
    classifiers below follow the leading-underscore conventions the spec
    names (two leading underscores without two trailing ones: private; one
    leading underscore: protected).  Sample expressions are their own
    rendered text. *)

Definition endsWith (suffix s : string) : bool :=
  startsWith (string_of_list_ascii (rev (list_ascii_of_string suffix)))
             (string_of_list_ascii (rev (list_ascii_of_string s))).

Definition pyIsPrivateName (name : string) : bool :=
  (2 <? String.length name)%nat && startsWith "__" name
  && negb (endsWith "__" name).

Definition pyIsProtectedName (name : string) : bool :=
  (1 <? String.length name)%nat && startsWith "_" name
  && negb (startsWith "__" name).

Definition printText (e : string) : string := e.

#[export] Instance pyCollaborators : Collaborators string :=
  {| printExpression := printText;
     isPrivateName := pyIsPrivateName;
     isProtectedName := pyIsProtectedName |}.

Definition nm (s : string) : NameNode := {| nameToken_value := s |}.

Definition simpleParam (name : string) : ParameterNode string :=
  {| category := ParamSimple; param_name := Some (nm name);
     typeAnnotation := None; defaultValue := None |}.

Definition plainClass (name : string) : ClassNode string :=
  {| cls_name := nm name; cls_decorators := []; cls_arguments := [] |}.

Definition plainFunction (name : string) (params : list (ParameterNode string))
  : FunctionNode string :=
  {| fn_name := nm name; isAsync := false; fn_decorators := [];
     fn_parameters := params; returnTypeAnnotation := None |}.

Definition sampleSource (tree : ParseNode string) : SourceFile string :=
  {| getParseResults :=
       Some {| parseTree := tree;
               predominantLineEndSequence := String "010" "";
               predominantTabSequence := "  " |} |}.

(** A fresh writer for [tree], writing to [out.pyi]. *)
Definition sampleWriter (tree : ParseNode string) : TypeStubWriter string :=
  newTypeStubWriter "out.pyi" (sampleSource tree).

(** Paths with a leading [./] name the file of the path without it. *)
Definition sampleResolve (path : string) : string :=
  match path with
  | String "." (String "/" rest) => rest
  | _ => path
  end.

(** An empty file system in which every path can be written. *)
Definition emptyFs : FileSystem :=
  {| resolve := sampleResolve;
     canWrite := fun _ => true;
     stored := fun _ => None |}.

(** A file system that already holds [b.pyi]. *)
Definition staleFs : FileSystem :=
  {| resolve := sampleResolve;
     canWrite := fun _ => true;
     stored := fun file => if String.eqb file "b.pyi" then Some "stale"
                           else None |}.


(** [class Shape(Base)] with a public and a protected method, a private
    module-level function, a protected class with a public method, and a
    from-import. *)
Definition sampleModule : ParseNode string :=
  OtherN
    [ ImportFromN {| from_module := {| leadingDots := 1; nameParts := [nm "base"] |};
                     isWildcardImport := true;
                     from_imports := [] |};
      ClassN {| cls_name := nm "Shape"; cls_decorators := [];
                cls_arguments := [ {| argumentCategory := ArgSimple;
                                      arg_name := None;
                                      valueExpression := "Base" |} ] |}
             [ FunctionN (plainFunction "area" [simpleParam "self"]) [];
               FunctionN (plainFunction "_helper" [simpleParam "self"]) [] ];
      FunctionN (plainFunction "__private" []) [];
      ClassN (plainClass "_Hidden")
             [ FunctionN (plainFunction "visible" [simpleParam "self"]) [] ] ].

(** [def scale(self, factor: float = 5, origin=None) -> Shape]. *)
Definition defaultsFunction : FunctionNode string :=
  {| fn_name := nm "scale"; isAsync := false; fn_decorators := [];
     fn_parameters :=
       [ simpleParam "self";
         {| category := ParamSimple; param_name := Some (nm "factor");
            typeAnnotation := Some "float"; defaultValue := Some "5" |};
         {| category := ParamSimple; param_name := Some (nm "origin");
            typeAnnotation := None; defaultValue := Some "None" |} ];
     returnTypeAnnotation := Some "Shape" |}.

(** A class body in which nothing survives the filter: a protected method,
    a private class with a public method, an import, and an [if] block
    holding a private function. *)
Definition filteredBody : list (ParseNode string) :=
  [ FunctionN (plainFunction "_helper" [simpleParam "self"]) [];
    ClassN (plainClass "__Impl")
           [ FunctionN (plainFunction "run" [simpleParam "self"]) [] ];
    ImportN {| imp_list := [ {| imp_module := {| leadingDots := 0;
                                                 nameParts := [nm "os"] |};
                               imp_alias := None |} ] |};
    OtherN [ FunctionN (plainFunction "__mangled" []) [] ] ].

(** [def outer(): def inner(): def innermost(): ...], with a class next to
    [inner]. *)
Definition nestedBody : list (ParseNode string) :=
  [ FunctionN (plainFunction "inner" [])
              [ FunctionN (plainFunction "innermost" []) [] ];
    ClassN (plainClass "Local")
           [ FunctionN (plainFunction "method" [simpleParam "self"]) [] ] ].

(** A writer in the middle of a function body. *)
Definition writerInFunction : TypeStubWriter string :=
  set_functionNestCount 1
    (set_indentAmount 1 (sampleWriter (OtherN []))).

(** [_Hidden], a protected class, and its public method. *)
Definition hiddenBody : list (ParseNode string) :=
  [ FunctionN (plainFunction "visible" [simpleParam "self"]) [] ].

(** The class [Mixed], whose two arguments are a starred unpack of [bases]
    and a double-starred unpack of [options]. *)
Definition starArgument : ArgumentNode string :=
  {| argumentCategory := UnpackedList; arg_name := None;
     valueExpression := "bases" |}.

Definition doubleStarArgument : ArgumentNode string :=
  {| argumentCategory := UnpackedDictionary; arg_name := None;
     valueExpression := "options" |}.

Definition mixedClass : ClassNode string :=
  {| cls_name := nm "Mixed"; cls_decorators := [];
     cls_arguments := [starArgument; doubleStarArgument] |}.

Definition wildcardModule : ModuleNameNode :=
  {| leadingDots := 2; nameParts := [nm "pkg"; nm "base"] |}.

(** ** Vocabulary of the further properties *)

(** The line [visitImport] builds. *)
Definition importLine (node : ImportNode) : string :=
  "import " ++ String.concat ", " (map importAsText (imp_list node)).

(** A segment of a dotted module name: an identifier that is not empty. *)
Definition isNamePart (s : string) : bool :=
  negb (String.eqb s "") && isIdentifier s.

(** A module name as the parser builds it: a count of leading dots that is
    not negative, and name parts that are identifiers. *)
Definition isModuleName (node : ModuleNameNode) : bool :=
  (0 <=? leadingDots node)
  && forallb (fun part => isNamePart (nameToken_value part)) (nameParts node).

(** What follows the first part in a dotted name. *)
Definition dottedTail (parts : list string) : string :=
  match parts with
  | [] => ""
  | _ :: _ => String "." (String.concat "." parts)
  end.

Section FurtherVocabulary.
Context {ExpressionNode : Type} {collaborators : Collaborators ExpressionNode}.

(** The tree without its import statements, at any depth. *)
Fixpoint eraseImports (node : ParseNode ExpressionNode)
  : list (ParseNode ExpressionNode) :=
  match node with
  | ClassN c suite => [ClassN c (flat_map eraseImports suite)]
  | FunctionN f suite => [FunctionN f (flat_map eraseImports suite)]
  | ImportN _ => []
  | ImportFromN _ => []
  | OtherN children => [OtherN (flat_map eraseImports children)]
  end.

(** A statement that leaves no trace when it is met inside a function
    body: a function, an import, a class with a private or protected name,
    or any other statement whose children all leave no trace. *)
Fixpoint isDroppedInFunction (node : ParseNode ExpressionNode) : bool :=
  match node with
  | ClassN c _ => negb (isPublicName (nameToken_value (cls_name c)))
  | FunctionN _ _ => true
  | ImportN _ => true
  | ImportFromN _ => true
  | OtherN children => forallb isDroppedInFunction children
  end.

(** Two writers at the same place of a traversal: the same indentation,
    nesting counters and formatting; their buffers and flags may differ. *)
Definition SamePlace (w1 w2 : TypeStubWriter ExpressionNode) : Prop :=
  _indentAmount w1 = _indentAmount w2
  /\ _classNestCount w1 = _classNestCount w2
  /\ _functionNestCount w1 = _functionNestCount w2
  /\ _tab w1 = _tab w2
  /\ _lineEnd w1 = _lineEnd w2.

(** The lines that walking [children] from [w] adds to the log. *)
Definition linesOf (children : list (ParseNode ExpressionNode))
    (w : TypeStubWriter ExpressionNode) : list (Z * string) :=
  skipn (List.length (emitLog w)) (emitLog (walkChildren children w)).

End FurtherVocabulary.

(** ** Further sample inputs *)

(** [import os] and [import pkg.base as base]. *)
Definition sampleImports : list ImportNode :=
  [ {| imp_list := [ {| imp_module := {| leadingDots := 0;
                                         nameParts := [nm "os"] |};
                        imp_alias := None |} ] |};
    {| imp_list := [ {| imp_module := {| leadingDots := 0;
                                         nameParts := [nm "pkg"; nm "base"] |};
                        imp_alias := Some (nm "base") |} ] |} ].

(** [class Shape(Base, metaclass=Meta)]. *)
Definition shapeClass : ClassNode string :=
  {| cls_name := nm "Shape"; cls_decorators := [];
     cls_arguments :=
       [ {| argumentCategory := ArgSimple; arg_name := None;
            valueExpression := "Base" |};
         {| argumentCategory := ArgSimple; arg_name := Some (nm "metaclass");
            valueExpression := "Meta" |} ] |}.

(** The writer of the sample module after a first call of [write]. *)
Definition usedWriter : TypeStubWriter string :=
  match write (sampleWriter sampleModule) emptyFs with
  | Some (w, _) => w
  | None => sampleWriter sampleModule
  end.

(** * Properties *)

(** ** Strings *)

Lemma append_assoc (a b c : string) : (a ++ b) ++ c = a ++ (b ++ c).
Proof.
  induction a as [|x a IH]; simpl; [reflexivity | now rewrite IH].
Qed.

Lemma append_nil_r (a : string) : a ++ "" = a.
Proof.
  induction a as [|x a IH]; simpl; [reflexivity | now rewrite IH].
Qed.

Lemma startsWith_append (pre rest : string) : startsWith pre (pre ++ rest) = true.
Proof.
  induction pre as [|x pre IH]; simpl; [reflexivity|].
  now rewrite Ascii.eqb_refl.
Qed.

Lemma startsWith_inv (pre s : string) :
  startsWith pre s = true -> exists rest, s = pre ++ rest.
Proof.
  revert s; induction pre as [|x pre IH]; intros s H; simpl in *.
  - now exists s.
  - destruct s as [|y s]; [discriminate|].
    apply andb_true_iff in H as [Hxy H].
    apply Ascii.eqb_eq in Hxy; subst y.
    destruct (IH _ H) as [rest ->]. now exists rest.
Qed.

Lemma identifier_char_not_delimiter (c : ascii) :
  isIdentifierChar c = true -> c <> "("%char /\ c <> ":"%char.
Proof.
  intros H; split; intros ->; vm_compute in H; discriminate.
Qed.

(** An identifier followed by a delimiter determines the identifier. *)
Lemma identifier_prefix_unique (a b : string) (d1 d2 : ascii) (r1 r2 : string) :
  isIdentifier a = true -> isIdentifier b = true ->
  (d1 = "("%char \/ d1 = ":"%char) -> (d2 = "("%char \/ d2 = ":"%char) ->
  a ++ String d1 r1 = b ++ String d2 r2 -> a = b.
Proof.
  revert b; induction a as [|x a IH]; intros [|y b] Ha Hb Hd1 Hd2 E;
    simpl in *.
  - reflexivity.
  - apply andb_true_iff in Hb as [Hy _].
    apply identifier_char_not_delimiter in Hy as [? ?].
    injection E as E _. subst y. destruct Hd1; contradiction.
  - apply andb_true_iff in Ha as [Hx _].
    apply identifier_char_not_delimiter in Hx as [? ?].
    injection E as E _. subst x. destruct Hd2; contradiction.
  - apply andb_true_iff in Ha as [_ Ha].
    apply andb_true_iff in Hb as [_ Hb].
    injection E as -> E. f_equal. now apply (IH b).
Qed.

Lemma appendTabs_indentText (n : nat) (tab text : string) :
  appendTabs n tab text = text ++ indentText n tab.
Proof.
  revert text; induction n as [|n IH]; intros text; simpl.
  - now rewrite append_nil_r.
  - now rewrite IH, append_assoc.
Qed.

Lemma renderLog_app (tab lineEnd : string) (l1 l2 : list (Z * string)) :
  renderLog tab lineEnd (l1 ++ l2)
  = renderLog tab lineEnd l1 ++ renderLog tab lineEnd l2.
Proof.
  induction l1 as [|e l1 IH]; simpl; [reflexivity|].
  now rewrite IH, append_assoc.
Qed.

(** ** Writing a file *)

Lemma writeFileSync_stores (path data : string) (fs fs' : FileSystem) :
  writeFileSync path data fs = Some fs' ->
  canWrite fs path = true
  /\ readFile fs' path = Some data
  /\ (forall other, resolve fs other <> resolve fs path ->
                    readFile fs' other = readFile fs other).
Proof.
  unfold writeFileSync. destruct (canWrite fs path); [|discriminate].
  intros E. injection E as <-. unfold readFile; simpl.
  split; [reflexivity|]. split; [now rewrite String.eqb_refl|].
  intros other Hne. apply String.eqb_neq in Hne. now rewrite Hne.
Qed.


(** ** Induction over parse trees *)

Section ParseNodeInduction.
Variable ExpressionNode : Type.
Variable P : ParseNode ExpressionNode -> Prop.
Hypothesis HClass : forall c suite, Forall P suite -> P (ClassN c suite).
Hypothesis HFunction : forall f suite, Forall P suite -> P (FunctionN f suite).
Hypothesis HImport : forall i, P (ImportN i).
Hypothesis HImportFrom : forall i, P (ImportFromN i).
Hypothesis HOther : forall children, Forall P children -> P (OtherN children).

Lemma ParseNode_ind : forall node, P node.
Proof.
  fix IH 1.
  intros [c suite|f suite|i|i|children].
  - apply HClass. induction suite as [|n rest IHrest]; constructor;
      [apply IH | exact IHrest].
  - apply HFunction. induction suite as [|n rest IHrest]; constructor;
      [apply IH | exact IHrest].
  - apply HImport.
  - apply HImportFrom.
  - apply HOther. induction children as [|n rest IHrest]; constructor;
      [apply IH | exact IHrest].
Qed.
End ParseNodeInduction.

Section Properties.
Context {ExpressionNode : Type} {collaborators : Collaborators ExpressionNode}.

Local Abbreviation Writer := (TypeStubWriter ExpressionNode).
Local Abbreviation Node := (ParseNode ExpressionNode).

(** *** Frame facts of the primitive steps *)

Lemma Appends_refl (w : Writer) : Appends w w [].
Proof.
  unfold Appends; simpl. rewrite app_nil_r, append_nil_r.
  repeat split; auto.
Qed.

Lemma Appends_trans (w w1 w2 : Writer) l1 l2 :
  Appends w w1 l1 -> Appends w1 w2 l2 -> Appends w w2 (l1 ++ l2).
Proof.
  unfold Appends.
  intros (P1 & S1 & E1 & T1 & I1 & C1 & F1 & L1 & X1 & A1)
         (P2 & S2 & E2 & T2 & I2 & C2 & F2 & L2 & X2 & A2).
  repeat split; try congruence.
  - rewrite L2, L1. now rewrite app_assoc.
  - rewrite X2, X1, T1, E1, renderLog_app. now rewrite append_assoc.
  - apply Forall_app; split; [exact A1|]. now rewrite <- I1.
Qed.

Lemma Appends_emitLine (line : string) (w : Writer) :
  Appends w (_emitLine line w) [(_indentAmount w, line)].
Proof.
  unfold Appends; simpl. repeat split; auto.
  - rewrite appendTabs_indentText. unfold lineText; simpl.
    now rewrite append_nil_r, append_assoc.
  - constructor; [simpl; lia | constructor].
Qed.

Lemma emittedSuite_emitLine (line : string) (w : Writer) :
  _emittedSuite (_emitLine line w) = _emittedSuite w.
Proof. reflexivity. Qed.

Lemma Appends_emitDecorators decorators (w : Writer) :
  Appends w (_emitDecorators decorators w)
          (decoratorLines (_indentAmount w) decorators)
  /\ _emittedSuite (_emitDecorators decorators w) = _emittedSuite w.
Proof.
  revert w; induction decorators as [|d rest IH]; intros w.
  - split; [apply Appends_refl | reflexivity].
  - unfold _emitDecorators in *; simpl.
    destruct (IH (_emitLine (decoratorLine d) w)) as [HA HF].
    split; [|now rewrite HF].
    exact (Appends_trans w _ _ [(_indentAmount w, decoratorLine d)] _
                         (Appends_emitLine _ w) HA).
Qed.

Ltac appends_facts :=
  repeat match goal with
         | H : Emits _ _ _ |- _ => destruct H as [H ?]
         | H : Appends _ _ _ |- _ =>
             let P := fresh "P" in let S := fresh "S" in
             let E := fresh "E" in let T := fresh "T" in
             let I := fresh "I" in let C := fresh "C" in
             let F := fresh "F" in let L := fresh "L" in
             let X := fresh "X" in let A := fresh "A" in
             destruct H as (P & S & E & T & I & C & F & L & X & A);
             simpl in P, S, E, T, I, C, F, L, X, A
         end.

Lemma Appends_log (w w' : Writer) l :
  Appends w w' l -> emitLog w' = (emitLog w ++ l)%list.
Proof. intros H; appends_facts; assumption. Qed.

Lemma Appends_text (w w' : Writer) l :
  Appends w w' l ->
  _typeStubText w' = _typeStubText w ++ renderLog (_tab w) (_lineEnd w) l.
Proof. intros H; appends_facts; assumption. Qed.

(** *** Suites *)

(** A suite around a callback that behaves like a traversal step logs at
    least one line, all of it one level deeper, and hands the flag back. *)
Lemma emitSuite_shape (callback : Writer -> Writer) (w : Writer) :
  (forall w1, exists l, Emits w1 (callback w1) l) ->
  exists l,
    Appends w (_emitSuite callback w) l
    /\ l <> []
    /\ Forall (fun entry => _indentAmount w + 1 <= fst entry) l
    /\ _emittedSuite (_emitSuite callback w) = _emittedSuite w.
Proof.
  intros Hcb. unfold _emitSuite, _increaseIndent.
  set (w1 := set_emittedSuite false (set_indentAmount (_indentAmount w + 1) w)).
  destruct (Hcb w1) as [l Hl].
  change (callback (set_emittedSuite false
                      (set_indentAmount (_indentAmount w + 1) w)))
    with (callback w1).
  destruct (_emittedSuite (callback w1)) eqn:Hflag; simpl.
  - exists l. appends_facts.
    assert (l <> []) by (destruct H as [H|[_ H]]; [simpl in H; congruence|exact H]).
    unfold Appends; simpl.
    repeat split; auto; try lia.
    revert A; apply Forall_impl; intros; lia.
  - exists (l ++ [(_indentAmount w + 1, "...")])%list.
    pose proof (Appends_emitLine "..." (callback w1)) as HE.
    destruct Hl as [Hl _].
    pose proof (Appends_trans _ _ _ _ _ Hl HE) as HT.
    assert (Hi : _indentAmount (callback w1) = _indentAmount w + 1)
      by (appends_facts; assumption).
    rewrite Hi in HT. clear Hl HE.
    appends_facts.
    unfold Appends; simpl.
    repeat split; auto; try lia;
      try (revert A; apply Forall_impl; intros; lia).
    intros Hnil; apply app_eq_nil in Hnil as [_ Hnil]; discriminate.
Qed.

(** The flag is local to the suite, whatever the callback does. *)
Lemma emittedSuite_emitSuite (callback : Writer -> Writer) (w : Writer) :
  _emittedSuite (_emitSuite callback w) = _emittedSuite w.
Proof.
  unfold _emitSuite, _increaseIndent.
  destruct (negb _); reflexivity.
Qed.

Lemma classCallback_emits (children : Writer -> Writer) :
  (forall w1, exists l, Emits w1 (children w1) l) ->
  forall w1, exists l,
    Emits w1
      (let w := set_classNestCount (_classNestCount w1 + 1) w1 in
       let w := children w in
       set_classNestCount (_classNestCount w - 1) w) l.
Proof.
  intros H w1.
  destruct (H (set_classNestCount (_classNestCount w1 + 1) w1)) as [l Hl].
  exists l. appends_facts. simpl.
  split; [|exact H0].
  unfold Appends; simpl. repeat split; auto; lia.
Qed.

Lemma functionCallback_emits (children : Writer -> Writer) :
  (forall w1, exists l, Emits w1 (children w1) l) ->
  forall w1, exists l,
    Emits w1
      (let w := set_functionNestCount (_functionNestCount w1 + 1) w1 in
       let w := children w in
       set_functionNestCount (_functionNestCount w - 1) w) l.
Proof.
  intros H w1.
  destruct (H (set_functionNestCount (_functionNestCount w1 + 1) w1)) as [l Hl].
  exists l. appends_facts. simpl.
  split; [|exact H0].
  unfold Appends; simpl. repeat split; auto; lia.
Qed.

Lemma Appends_set_emittedSuite (b : bool) (w : Writer) :
  Appends w (set_emittedSuite b w) [].
Proof.
  unfold Appends; simpl. rewrite app_nil_r, append_nil_r.
  repeat split; auto.
Qed.

Lemma Appends_indent (w w' : Writer) l :
  Appends w w' l -> _indentAmount w' = _indentAmount w.
Proof. intros H; appends_facts; assumption. Qed.

(** *** The two declaration visitors *)

(** The arrow function [visitClass] hands to [_emitSuite]. *)
Local Abbreviation classCallback children :=
  (fun w2 : Writer =>
     set_classNestCount
       (_classNestCount
          (children (set_classNestCount (_classNestCount w2 + 1) w2)) - 1)
       (children (set_classNestCount (_classNestCount w2 + 1) w2))).

(** An accepted class logs its decorators, its header, whatever its suite
    logs, and two empty lines. *)
Lemma visitClass_frame (children : Writer -> Writer)
    (c : ClassNode ExpressionNode) (w : Writer) (ls : list (Z * string)) :
  isPublicName (nameToken_value (cls_name c)) = true ->
  (let wh := _emitLine (classLine c)
               (_emitDecorators (cls_decorators c) (set_emittedSuite true w)) in
   Appends wh (_emitSuite (classCallback children) wh) ls) ->
  Appends w (snd (visitClass children c w))
    (decoratorLines (_indentAmount w) (cls_decorators c)
     ++ (_indentAmount w, classLine c) :: ls
     ++ [(_indentAmount w, ""); (_indentAmount w, "")])
  /\ _emittedSuite (snd (visitClass children c w)) = true.
Proof.
  intros Hpub Hs. unfold visitClass.
  unfold isPublicName in Hpub. rewrite Hpub. cbv zeta in *. simpl snd.
  set (w0 := set_emittedSuite true w) in *.
  set (wd := _emitDecorators (cls_decorators c) w0) in *.
  set (wh := _emitLine (classLine c) wd) in *.
  set (ws := _emitSuite (classCallback children) wh) in *.
  pose proof (Appends_set_emittedSuite true w) as H0. fold w0 in H0.
  destruct (Appends_emitDecorators (cls_decorators c) w0) as [Hd Hdf].
  fold wd in Hd, Hdf.
  pose proof (Appends_emitLine (classLine c) wd) as Hh. fold wh in Hh.
  pose proof (emittedSuite_emitSuite (classCallback children) wh) as Hsf.
  fold ws in Hsf.
  pose proof (Appends_emitLine "" ws) as Hb1.
  pose proof (Appends_emitLine "" (_emitLine "" ws)) as Hb2.
  assert (Iwd : _indentAmount wd = _indentAmount w)
    by (rewrite (Appends_indent _ _ _ Hd); reflexivity).
  assert (Iwh : _indentAmount wh = _indentAmount w) by exact Iwd.
  assert (Iws : _indentAmount ws = _indentAmount w)
    by (rewrite (Appends_indent _ _ _ Hs); exact Iwh).
  change (_indentAmount (_emitLine "" ws)) with (_indentAmount ws) in Hb2.
  rewrite Iws in Hb1, Hb2. rewrite Iwd in Hh.
  change (_indentAmount w0) with (_indentAmount w) in Hd.
  split.
  - pose proof (Appends_trans _ _ _ _ _
                  (Appends_trans _ _ _ _ _
                     (Appends_trans _ _ _ _ _
                        (Appends_trans _ _ _ _ _
                           (Appends_trans _ _ _ _ _ H0 Hd) Hh) Hs) Hb1) Hb2)
      as HT.
    simpl app in HT. repeat rewrite <- app_assoc in HT. exact HT.
  - change (_emittedSuite ws = true). rewrite Hsf.
    change (_emittedSuite wd = true). rewrite Hdf. reflexivity.
Qed.

(** What an accepted class logs: its decorators, its header, a suite that
    is not empty and sits one level deeper, and two empty lines. *)
Lemma visitClass_accepted (children : Writer -> Writer)
    (c : ClassNode ExpressionNode) (w : Writer) :
  isPublicName (nameToken_value (cls_name c)) = true ->
  (forall w1, exists l, Emits w1 (children w1) l) ->
  exists lsuite,
    Appends w (snd (visitClass children c w))
      (decoratorLines (_indentAmount w) (cls_decorators c)
       ++ (_indentAmount w, classLine c) :: lsuite
       ++ [(_indentAmount w, ""); (_indentAmount w, "")])
    /\ lsuite <> []
    /\ Forall (fun entry => _indentAmount w + 1 <= fst entry) lsuite
    /\ _emittedSuite (snd (visitClass children c w)) = true.
Proof.
  intros Hpub Hch.
  set (wh := _emitLine (classLine c)
               (_emitDecorators (cls_decorators c) (set_emittedSuite true w))).
  destruct (emitSuite_shape (classCallback children) wh
              (classCallback_emits children Hch))
    as (ls & Hs & Hne & Hdeep & _).
  assert (Iwh : _indentAmount wh = _indentAmount w).
  { unfold wh.
    destruct (Appends_emitDecorators (cls_decorators c) (set_emittedSuite true w))
      as [Hd _].
    change (_indentAmount (_emitDecorators (cls_decorators c)
                             (set_emittedSuite true w)) = _indentAmount w).
    now rewrite (Appends_indent _ _ _ Hd). }
  rewrite Iwh in Hdeep.
  destruct (visitClass_frame children c w ls Hpub Hs) as [HA HF].
  exists ls. auto.
Qed.

(** What an accepted function logs: its decorators, its header, a suite
    that is not empty and sits one level deeper, and one empty line. *)
Lemma visitFunction_accepted (children : Writer -> Writer)
    (f : FunctionNode ExpressionNode) (w : Writer) :
  _functionNestCount w = 0 ->
  isPublicName (nameToken_value (fn_name f)) = true ->
  (forall w1, exists l, Emits w1 (children w1) l) ->
  exists lsuite,
    Appends w (snd (visitFunction children f w))
      (decoratorLines (_indentAmount w) (fn_decorators f)
       ++ (_indentAmount w, functionLine f) :: lsuite
       ++ [(_indentAmount w, "")])
    /\ lsuite <> []
    /\ Forall (fun entry => _indentAmount w + 1 <= fst entry) lsuite
    /\ _emittedSuite (snd (visitFunction children f w)) = true.
Proof.
  intros Hnest Hpub Hch. unfold visitFunction.
  unfold isPublicName in Hpub. rewrite Hnest, <- andb_assoc, Hpub.
  cbv zeta. simpl snd.
  set (w0 := set_emittedSuite true w).
  set (wd := _emitDecorators (fn_decorators f) w0).
  set (wh := _emitLine (functionLine f) wd).
  set (cb := fun w2 : Writer =>
               set_functionNestCount
                 (_functionNestCount
                    (children
                       (set_functionNestCount (_functionNestCount w2 + 1) w2)) - 1)
                 (children
                    (set_functionNestCount (_functionNestCount w2 + 1) w2))).
  set (ws := _emitSuite cb wh).
  pose proof (Appends_set_emittedSuite true w) as H0. fold w0 in H0.
  destruct (Appends_emitDecorators (fn_decorators f) w0) as [Hd Hdf].
  fold wd in Hd, Hdf.
  pose proof (Appends_emitLine (functionLine f) wd) as Hh. fold wh in Hh.
  destruct (emitSuite_shape cb wh (functionCallback_emits children Hch))
    as (ls & Hs & Hne & Hdeep & Hsf).
  fold ws in Hs, Hsf.
  pose proof (Appends_emitLine "" ws) as Hb1.
  assert (Iwd : _indentAmount wd = _indentAmount w)
    by (rewrite (Appends_indent _ _ _ Hd); reflexivity).
  assert (Iwh : _indentAmount wh = _indentAmount w) by exact Iwd.
  assert (Iws : _indentAmount ws = _indentAmount w)
    by (rewrite (Appends_indent _ _ _ Hs); exact Iwh).
  rewrite Iws in Hb1. rewrite Iwd in Hh. rewrite Iwh in Hdeep.
  change (_indentAmount w0) with (_indentAmount w) in Hd.
  exists ls. split; [|split; [exact Hne|split; [exact Hdeep|]]].
  - pose proof (Appends_trans _ _ _ _ _
                  (Appends_trans _ _ _ _ _
                     (Appends_trans _ _ _ _ _
                        (Appends_trans _ _ _ _ _ H0 Hd) Hh) Hs) Hb1)
      as HT.
    simpl app in HT. repeat rewrite <- app_assoc in HT. exact HT.
  - change (_emittedSuite ws = true). rewrite Hsf.
    change (_emittedSuite wd = true). rewrite Hdf. reflexivity.
Qed.

Lemma visitClass_rejected (children : Writer -> Writer)
    (c : ClassNode ExpressionNode) (w : Writer) :
  isPublicName (nameToken_value (cls_name c)) = false ->
  visitClass children c w = (false, w).
Proof.
  intros H. unfold visitClass. unfold isPublicName in H. now rewrite H.
Qed.

Lemma visitFunction_rejected (children : Writer -> Writer)
    (f : FunctionNode ExpressionNode) (w : Writer) :
  _functionNestCount w <> 0
  \/ isPublicName (nameToken_value (fn_name f)) = false ->
  visitFunction children f w = (false, w).
Proof.
  intros H. unfold visitFunction. unfold isPublicName in H.
  destruct H as [H|H].
  - apply Z.eqb_neq in H. now rewrite H.
  - now rewrite <- andb_assoc, H, andb_false_r.
Qed.

(** *** The walker, one node kind at a time *)

Lemma walk_class (c : ClassNode ExpressionNode) suite (w : Writer) :
  walk (ClassN c suite) w = snd (visitClass (walkChildren suite) c w).
Proof.
  simpl. unfold visitClass, walkChildren.
  destruct (negb _ && negb _); reflexivity.
Qed.

Lemma walk_function (f : FunctionNode ExpressionNode) suite (w : Writer) :
  walk (FunctionN f suite) w = snd (visitFunction (walkChildren suite) f w).
Proof.
  simpl. unfold visitFunction, walkChildren.
  destruct (_ && negb _); reflexivity.
Qed.

Lemma walk_import (i : ImportNode) (w : Writer) :
  walk (ImportN i) w = snd (visitImport i w).
Proof.
  simpl. destruct (visitImport i w); reflexivity.
Qed.

Lemma walk_importFrom (i : ImportFromNode) (w : Writer) :
  walk (ImportFromN i) w = snd (visitImportFrom i w).
Proof.
  simpl. destruct (visitImportFrom i w); reflexivity.
Qed.

Lemma walk_other (children : list Node) (w : Writer) :
  walk (OtherN children) w = walkChildren children w.
Proof. reflexivity. Qed.

Lemma walkChildren_nil (w : Writer) : walkChildren [] w = w.
Proof. reflexivity. Qed.

Lemma walkChildren_cons (n : Node) rest (w : Writer) :
  walkChildren (n :: rest) w = walkChildren rest (walk n w).
Proof. reflexivity. Qed.

Lemma walkChildren_app (l1 l2 : list Node) (w : Writer) :
  walkChildren (l1 ++ l2) w = walkChildren l2 (walkChildren l1 w).
Proof. unfold walkChildren. apply fold_left_app. Qed.

(** *** Every traversal step is an [Emits] step *)

Lemma Emits_refl (w : Writer) : Emits w w [].
Proof. split; [apply Appends_refl | now left]. Qed.

Lemma Emits_trans (w w1 w2 : Writer) l1 l2 :
  Emits w w1 l1 -> Emits w1 w2 l2 -> Emits w w2 (l1 ++ l2).
Proof.
  intros [A1 F1] [A2 F2]. split; [now apply (Appends_trans w w1 w2)|].
  destruct F2 as [F2|[F2 N2]].
  - destruct F1 as [F1|[F1 N1]].
    + left; congruence.
    + right; split; [congruence|].
      intros H; apply app_eq_nil in H as [H _]; contradiction.
  - right; split; [exact F2|].
    intros H; apply app_eq_nil in H as [_ H]; contradiction.
Qed.

Lemma Emits_emitLine (line : string) (w : Writer) :
  Emits w (_emitLine line w) [(_indentAmount w, line)].
Proof. split; [apply Appends_emitLine | now left]. Qed.

Lemma walkChildren_emits (children : list Node) :
  Forall (fun n => forall w, exists l, Emits w (walk n w) l) children ->
  forall w, exists l, Emits w (walkChildren children w) l.
Proof.
  induction 1 as [|n rest Hn _ IH]; intros w.
  - exists []. apply Emits_refl.
  - rewrite walkChildren_cons.
    destruct (Hn w) as [l1 H1]. destruct (IH (walk n w)) as [l2 H2].
    exists (l1 ++ l2)%list. now apply (Emits_trans w (walk n w)).
Qed.

Lemma walk_emits (node : Node) :
  forall w, exists l, Emits w (walk node w) l.
Proof.
  induction node as [c suite IH|f suite IH|i|i|children IH]
    using ParseNode_ind; intros w.
  - rewrite walk_class.
    destruct (isPublicName (nameToken_value (cls_name c))) eqn:Hpub.
    + destruct (visitClass_accepted (walkChildren suite) c w Hpub
                  (walkChildren_emits suite IH))
        as (ls & HA & _ & _ & HF).
      eexists; split; [exact HA|]. right; split; [exact HF|].
      intros H; apply app_eq_nil in H as [_ H]; discriminate.
    + rewrite visitClass_rejected by exact Hpub.
      exists []. apply Emits_refl.
  - rewrite walk_function.
    destruct (Z.eq_dec (_functionNestCount w) 0) as [Hnest|Hnest];
      [destruct (isPublicName (nameToken_value (fn_name f))) eqn:Hpub|].
    + destruct (visitFunction_accepted (walkChildren suite) f w Hnest Hpub
                  (walkChildren_emits suite IH))
        as (ls & HA & _ & _ & HF).
      eexists; split; [exact HA|]. right; split; [exact HF|].
      intros H; apply app_eq_nil in H as [_ H]; discriminate.
    + rewrite visitFunction_rejected by (right; exact Hpub).
      exists []. apply Emits_refl.
    + rewrite visitFunction_rejected by (left; exact Hnest).
      exists []. apply Emits_refl.
  - rewrite walk_import. unfold visitImport.
    destruct (_ || _); simpl.
    + exists []. apply Emits_refl.
    + eexists. apply Emits_emitLine.
  - rewrite walk_importFrom. unfold visitImportFrom.
    destruct (_ || _); simpl.
    + exists []. apply Emits_refl.
    + eexists. apply Emits_emitLine.
  - rewrite walk_other. now apply walkChildren_emits.
Qed.

Lemma walkChildren_emits_all (children : list Node) :
  forall w, exists l, Emits w (walkChildren children w) l.
Proof.
  apply walkChildren_emits. apply Forall_forall. intros n _. apply walk_emits.
Qed.

(** ** The suite flag *)

(** C4: a call of [_emitSuite] leaves [_emittedSuite] as it found it,
    whatever the callback does to the flag, and the callback always starts
    with the flag lowered: the emptiness of a nested suite is not visible
    in the enclosing suite, in either direction. *)
Theorem emitSuite_scopes_emittedSuite (callback : Writer -> Writer) (w : Writer) :
  _emittedSuite (_emitSuite callback w) = _emittedSuite w
  /\ _emitSuite callback w
     = _emitSuite (fun w1 => callback (set_emittedSuite false w1)) w.
Proof.
  split; [apply emittedSuite_emitSuite | reflexivity].
Qed.

(** ** Parameters *)

Lemma renderLog_cons (tab lineEnd : string) (i : Z) (line : string)
    (rest : list (Z * string)) :
  renderLog tab lineEnd ((i, line) :: rest)
  = indentText (Z.to_nat i) tab ++ line ++ lineEnd
    ++ renderLog tab lineEnd rest.
Proof.
  unfold renderLog at 1, lineText; simpl. now rewrite !append_assoc.
Qed.

(** Brings both sides of an equation between texts to one nesting of
    [++]. *)
Ltac normalize_append :=
  repeat first [rewrite append_assoc | rewrite append_nil_r | progress simpl].

(** C7: a parameter with a default renders the default as an ellipsis:
    [name: Type = ...] with an annotation and [name=...] without one.  The
    header of a function carries these renderings, joined by commas between
    its parentheses, and a rendered function puts that header in the log
    and in the text.  The rendering of a parameter, the header and the whole
    visit of the function do not depend on what the default expressions
    are. *)
Theorem parameter_default_is_redacted
    (name : string) (annotation default other : ExpressionNode)
    (p : ParameterNode ExpressionNode) (f : FunctionNode ExpressionNode)
    (functionName otherName : string) (suite : list Node) (w : Writer) :
  _printParameter {| category := ParamSimple;
                     param_name := Some {| nameToken_value := name |};
                     typeAnnotation := Some annotation;
                     defaultValue := Some default |}
  = name ++ ": " ++ printExpression annotation ++ " = ..."
  /\ _printParameter {| category := ParamSimple;
                        param_name := Some {| nameToken_value := name |};
                        typeAnnotation := None;
                        defaultValue := Some default |}
     = name ++ "=..."
  /\ _printParameter (replaceDefault other p) = _printParameter p
  /\ functionLine (replaceDefaults other f) = functionLine f
  /\ (forall children w,
        visitFunction children (replaceDefaults other f) w
        = visitFunction children f w)
  /\ functionLine f
     = (if isAsync f then "async " else "")
       ++ "def " ++ nameToken_value (fn_name f)
       ++ "(" ++ String.concat ", " (map _printParameter (fn_parameters f))
       ++ ")"
       ++ match returnTypeAnnotation f with
          | Some result => " -> " ++ printExpression result
          | None => ""
          end
       ++ ":"
  /\ functionLine
       {| fn_name := {| nameToken_value := functionName |};
          isAsync := false; fn_decorators := [];
          fn_parameters :=
            [ {| category := ParamSimple;
                 param_name := Some {| nameToken_value := name |};
                 typeAnnotation := Some annotation;
                 defaultValue := Some default |};
              {| category := ParamSimple;
                 param_name := Some {| nameToken_value := otherName |};
                 typeAnnotation := None;
                 defaultValue := Some default |} ];
          returnTypeAnnotation := None |}
     = "def " ++ functionName
       ++ "(" ++ name ++ ": " ++ printExpression annotation ++ " = ..."
       ++ ", " ++ otherName ++ "=..." ++ "):"
  /\ (isPublicName (nameToken_value (fn_name f)) = true ->
      _functionNestCount w = 0 ->
      exists lsuite,
        emitLog (walk (FunctionN f suite) w)
        = (emitLog w
           ++ decoratorLines (_indentAmount w) (fn_decorators f)
           ++ (_indentAmount w, functionLine f) :: lsuite
           ++ [(_indentAmount w, "")])%list
        /\ _typeStubText (walk (FunctionN f suite) w)
           = _typeStubText w
             ++ renderLog (_tab w) (_lineEnd w)
                  (decoratorLines (_indentAmount w) (fn_decorators f))
             ++ indentText (Z.to_nat (_indentAmount w)) (_tab w)
             ++ functionLine f ++ _lineEnd w
             ++ renderLog (_tab w) (_lineEnd w)
                  (lsuite ++ [(_indentAmount w, "")])).
Proof.
  assert (Hp : forall q : ParameterNode ExpressionNode,
             _printParameter (replaceDefault other q) = _printParameter q).
  { intros q. unfold _printParameter, replaceDefault; simpl.
    destruct (defaultValue q); reflexivity. }
  assert (Hf : functionLine (replaceDefaults other f) = functionLine f).
  { unfold functionLine, replaceDefaults; simpl.
    rewrite map_map.
    rewrite (map_ext _ _ Hp). reflexivity. }
  split; [unfold _printParameter; simpl; now rewrite append_assoc|].
  split; [reflexivity|].
  split; [apply Hp|].
  split; [exact Hf|].
  split; [intros children w0; unfold visitFunction; rewrite Hf; reflexivity|].
  split.
  { unfold functionLine, _printExpression.
    destruct (returnTypeAnnotation f), (isAsync f);
      normalize_append; reflexivity. }
  split.
  { unfold functionLine, _printParameter, _printExpression.
    normalize_append. reflexivity. }
  intros Hpub Hnest. rewrite walk_function.
  destruct (visitFunction_accepted (walkChildren suite) f w Hnest Hpub
              (walkChildren_emits_all suite))
    as (ls & HA & _ & _ & _).
  exists ls. split; [exact (Appends_log _ _ _ HA)|].
  rewrite (Appends_text _ _ _ HA), renderLog_app, renderLog_cons.
  reflexivity.
Qed.

(** ** Imports *)

(** C10: at module scope a wildcard from-import logs exactly one line,
    [from <module> import *], whatever its import list holds, and the text
    grows by that line, after the indentation and before the line end. *)
Theorem wildcard_import_from_line
    (module : ModuleNameNode) (imports : list ImportFromAsNode) (w : Writer) :
  _classNestCount w = 0 ->
  _functionNestCount w = 0 ->
  walk (ImportFromN {| from_module := module; isWildcardImport := true;
                       from_imports := imports |}) w
  = _emitLine ("from " ++ _printModuleName module ++ " import *") w
  /\ emitLog (walk (ImportFromN {| from_module := module;
                                   isWildcardImport := true;
                                   from_imports := imports |}) w)
     = (emitLog w
        ++ [(_indentAmount w,
             ("from " ++ _printModuleName module ++ " import *")%string)])%list
  /\ _typeStubText (walk (ImportFromN {| from_module := module;
                                         isWildcardImport := true;
                                         from_imports := imports |}) w)
     = _typeStubText w
       ++ indentText (Z.to_nat (_indentAmount w)) (_tab w)
       ++ "from " ++ _printModuleName module ++ " import *"
       ++ _lineEnd w.
Proof.
  intros Hc Hf.
  assert (E : walk (ImportFromN {| from_module := module;
                                   isWildcardImport := true;
                                   from_imports := imports |}) w
              = _emitLine ("from " ++ _printModuleName module ++ " import *") w).
  { rewrite walk_importFrom. unfold visitImportFrom. rewrite Hc, Hf. simpl.
    do 2 f_equal. now rewrite append_assoc. }
  split; [exact E|]. split; [now rewrite E|].
  rewrite E. simpl _typeStubText.
  rewrite appendTabs_indentText. simpl. now rewrite !append_assoc.
Qed.

(** ** Suites are never empty *)

Lemma walkChildren_filtered (children : list Node) :
  Forall (fun n => isFilteredMember n = true ->
                   forall w, 0 < _classNestCount w \/ 0 < _functionNestCount w ->
                             walk n w = w) children ->
  forallb isFilteredMember children = true ->
  forall w, 0 < _classNestCount w \/ 0 < _functionNestCount w ->
            walkChildren children w = w.
Proof.
  induction 1 as [|n rest Hn _ IH]; intros Hall w Hw; [reflexivity|].
  simpl in Hall. apply andb_true_iff in Hall as [H1 H2].
  rewrite walkChildren_cons, (Hn H1 w Hw). now apply IH.
Qed.

Lemma walk_filtered (node : Node) :
  isFilteredMember node = true ->
  forall w, 0 < _classNestCount w \/ 0 < _functionNestCount w ->
            walk node w = w.
Proof.
  induction node as [c suite IH|f suite IH|i|i|children IH]
    using ParseNode_ind; intros Hf w Hw; simpl in Hf.
  - apply negb_true_iff in Hf.
    now rewrite walk_class, visitClass_rejected.
  - apply negb_true_iff in Hf.
    rewrite walk_function, visitFunction_rejected; auto.
  - rewrite walk_import. unfold visitImport.
    assert (E : (0 <? _functionNestCount w) || (0 <? _classNestCount w) = true).
    { apply orb_true_iff. destruct Hw; [right|left]; now apply Z.ltb_lt. }
    now rewrite E.
  - rewrite walk_importFrom. unfold visitImportFrom.
    assert (E : (0 <? _functionNestCount w) || (0 <? _classNestCount w) = true).
    { apply orb_true_iff. destruct Hw; [right|left]; now apply Z.ltb_lt. }
    now rewrite E.
  - rewrite walk_other. now apply walkChildren_filtered.
Qed.

Lemma walkChildren_filtered_all (children : list Node) (w : Writer) :
  forallb isFilteredMember children = true ->
  0 < _classNestCount w \/ 0 < _functionNestCount w ->
  walkChildren children w = w.
Proof.
  intros H Hw. apply walkChildren_filtered; auto.
  apply Forall_forall. intros n _. apply walk_filtered.
Qed.

(** A suite whose callback leaves the writer alone logs the placeholder
    and nothing else. *)
Lemma emitSuite_idle (callback : Writer -> Writer) (w : Writer) :
  callback (set_emittedSuite false (set_indentAmount (_indentAmount w + 1) w))
  = set_emittedSuite false (set_indentAmount (_indentAmount w + 1) w) ->
  Appends w (_emitSuite callback w) [(_indentAmount w + 1, "...")].
Proof.
  intros H. unfold _emitSuite, _increaseIndent. cbv zeta beta.
  rewrite H. simpl.
  unfold Appends; simpl. repeat split; auto; try lia.
  - rewrite appendTabs_indentText. unfold lineText; simpl.
    now rewrite append_nil_r, append_assoc.
  - constructor; [simpl; lia | constructor].
Qed.

Lemma classCallback_idle (suite : list Node) (w1 : Writer) :
  forallb isFilteredMember suite = true ->
  0 <= _classNestCount w1 ->
  classCallback (walkChildren suite) w1 = w1.
Proof.
  intros Hall Hn. cbv beta.
  rewrite walkChildren_filtered_all; [|exact Hall|left; simpl; lia].
  destruct w1; unfold set_classNestCount; simpl. f_equal. lia.
Qed.

(** The writer just after a header line: counters as before the visit. *)
Lemma header_counters decorators (line : string) (w : Writer) :
  let wh := _emitLine line (_emitDecorators decorators (set_emittedSuite true w)) in
  _indentAmount wh = _indentAmount w
  /\ _classNestCount wh = _classNestCount w
  /\ _functionNestCount wh = _functionNestCount w.
Proof.
  destruct (Appends_emitDecorators decorators (set_emittedSuite true w))
    as [Hd _].
  appends_facts. simpl. auto.
Qed.

(** A class whose members are all filtered out logs the placeholder as
    its whole suite. *)
Lemma visitClass_filtered_members
    (c : ClassNode ExpressionNode) (suite : list Node) (w : Writer) :
  isPublicName (nameToken_value (cls_name c)) = true ->
  forallb isFilteredMember suite = true ->
  0 <= _classNestCount w ->
  Appends w (walk (ClassN c suite) w)
    (decoratorLines (_indentAmount w) (cls_decorators c)
     ++ [(_indentAmount w, classLine c); (_indentAmount w + 1, "...");
         (_indentAmount w, ""); (_indentAmount w, "")]).
Proof.
  intros Hpub Hall Hn. rewrite walk_class.
  apply (visitClass_frame (walkChildren suite) c w
           [(_indentAmount w + 1, "...")] Hpub).
  cbv zeta.
  destruct (header_counters (cls_decorators c) (classLine c) w)
    as (Hi & Hc & _).
  cbv zeta in Hi, Hc. rewrite <- Hi.
  apply emitSuite_idle.
  apply (classCallback_idle suite). exact Hall.
  simpl. simpl in Hc. lia.
Qed.

(** C1: every suite the writer opens for a class or a function logs at
    least one line, one level deeper than the header, before it closes;
    the suite of a class whose members are all filtered out is exactly one
    line, the ellipsis, indented one level deeper than the class header. *)
Theorem suite_is_never_empty
    (c : ClassNode ExpressionNode) (csuite : list Node) (w : Writer)
    (f : FunctionNode ExpressionNode) (fsuite : list Node) (w' : Writer) :
  isPublicName (nameToken_value (cls_name c)) = true ->
  isPublicName (nameToken_value (fn_name f)) = true ->
  _functionNestCount w' = 0 ->
  (exists lsuite,
      lsuite <> []
      /\ Forall (fun entry => _indentAmount w + 1 <= fst entry) lsuite
      /\ emitLog (walk (ClassN c csuite) w)
         = (emitLog w
            ++ decoratorLines (_indentAmount w) (cls_decorators c)
            ++ (_indentAmount w, classLine c) :: lsuite
            ++ [(_indentAmount w, ""); (_indentAmount w, "")])%list)
  /\ (exists lsuite,
         lsuite <> []
         /\ Forall (fun entry => _indentAmount w' + 1 <= fst entry) lsuite
         /\ emitLog (walk (FunctionN f fsuite) w')
            = (emitLog w'
               ++ decoratorLines (_indentAmount w') (fn_decorators f)
               ++ (_indentAmount w', functionLine f) :: lsuite
               ++ [(_indentAmount w', "")])%list)
  /\ (forallb isFilteredMember csuite = true ->
      0 <= _classNestCount w ->
      emitLog (walk (ClassN c csuite) w)
      = (emitLog w
         ++ decoratorLines (_indentAmount w) (cls_decorators c)
         ++ [(_indentAmount w, classLine c); (_indentAmount w + 1, "...");
             (_indentAmount w, ""); (_indentAmount w, "")])%list
      /\ _typeStubText (walk (ClassN c csuite) w)
         = _typeStubText w
           ++ renderLog (_tab w) (_lineEnd w)
                (decoratorLines (_indentAmount w) (cls_decorators c))
           ++ lineText (_tab w) (_lineEnd w) (_indentAmount w, classLine c)
           ++ (indentText (Z.to_nat (_indentAmount w + 1)) (_tab w)
               ++ "..." ++ _lineEnd w)
           ++ lineText (_tab w) (_lineEnd w) (_indentAmount w, "")
           ++ lineText (_tab w) (_lineEnd w) (_indentAmount w, "")).
Proof.
  intros Hc Hf Hnest. split; [|split].
  - rewrite walk_class.
    destruct (visitClass_accepted (walkChildren csuite) c w Hc
                (walkChildren_emits_all csuite))
      as (ls & HA & Hne & Hdeep & _).
    exists ls. repeat split; auto. now apply Appends_log.
  - rewrite walk_function.
    destruct (visitFunction_accepted (walkChildren fsuite) f w' Hnest Hf
                (walkChildren_emits_all fsuite))
      as (ls & HA & Hne & Hdeep & _).
    exists ls. repeat split; auto. now apply Appends_log.
  - intros Hall Hn.
    pose proof (visitClass_filtered_members c csuite w Hc Hall Hn) as HA.
    split; [now apply Appends_log|].
    rewrite (Appends_text _ _ _ HA), renderLog_app. simpl.
    now rewrite !append_nil_r.
Qed.

(** ** Blank lines after suites *)

Lemma renderLog_blank (tab lineEnd : string) (i : Z) :
  renderLog tab lineEnd [(i, "")] = indentText (Z.to_nat i) tab ++ lineEnd.
Proof. unfold renderLog, lineText; simpl. now rewrite append_nil_r. Qed.

(** C8: an accepted class logs, after its suite, exactly two lines whose
    content is the empty string, and an accepted function exactly one;
    the text such a line adds is the indentation in force and the line
    end, nothing else.  The suite before them ends one level deeper. *)
Theorem blank_lines_follow_suites
    (c : ClassNode ExpressionNode) (csuite : list Node) (w : Writer)
    (f : FunctionNode ExpressionNode) (fsuite : list Node) (w' : Writer) :
  isPublicName (nameToken_value (cls_name c)) = true ->
  isPublicName (nameToken_value (fn_name f)) = true ->
  _functionNestCount w' = 0 ->
  (exists lsuite,
      lsuite <> []
      /\ Forall (fun entry => _indentAmount w + 1 <= fst entry) lsuite
      /\ let body := (decoratorLines (_indentAmount w) (cls_decorators c)
                      ++ (_indentAmount w, classLine c) :: lsuite)%list in
         let blank := indentText (Z.to_nat (_indentAmount w)) (_tab w)
                      ++ _lineEnd w in
         emitLog (walk (ClassN c csuite) w)
         = (emitLog w ++ body
            ++ [(_indentAmount w, ""); (_indentAmount w, "")])%list
         /\ _typeStubText (walk (ClassN c csuite) w)
            = _typeStubText w ++ renderLog (_tab w) (_lineEnd w) body
              ++ blank ++ blank)
  /\ (exists lsuite,
         lsuite <> []
         /\ Forall (fun entry => _indentAmount w' + 1 <= fst entry) lsuite
         /\ let body := (decoratorLines (_indentAmount w') (fn_decorators f)
                         ++ (_indentAmount w', functionLine f) :: lsuite)%list in
            let blank := indentText (Z.to_nat (_indentAmount w')) (_tab w')
                         ++ _lineEnd w' in
            emitLog (walk (FunctionN f fsuite) w')
            = (emitLog w' ++ body ++ [(_indentAmount w', "")])%list
            /\ _typeStubText (walk (FunctionN f fsuite) w')
               = _typeStubText w' ++ renderLog (_tab w') (_lineEnd w') body
                 ++ blank).
Proof.
  intros Hc Hf Hnest. split.
  - rewrite walk_class.
    destruct (visitClass_accepted (walkChildren csuite) c w Hc
                (walkChildren_emits_all csuite))
      as (ls & HA & Hne & Hdeep & _).
    exists ls. split; [exact Hne|split; [exact Hdeep|]]. cbv zeta. split.
    + rewrite (Appends_log _ _ _ HA). now rewrite <- !app_assoc.
    + rewrite (Appends_text _ _ _ HA).
      change ((_indentAmount w, classLine c)
                :: ls ++ [(_indentAmount w, ""); (_indentAmount w, "")])%list
        with (((_indentAmount w, classLine c) :: ls)
                ++ [(_indentAmount w, "")] ++ [(_indentAmount w, "")])%list.
      rewrite app_assoc, !renderLog_app, !renderLog_blank.
      reflexivity.
  - rewrite walk_function.
    destruct (visitFunction_accepted (walkChildren fsuite) f w' Hnest Hf
                (walkChildren_emits_all fsuite))
      as (ls & HA & Hne & Hdeep & _).
    exists ls. split; [exact Hne|split; [exact Hdeep|]]. cbv zeta. split.
    + rewrite (Appends_log _ _ _ HA). now rewrite <- !app_assoc.
    + rewrite (Appends_text _ _ _ HA).
      change ((_indentAmount w', functionLine f)
                :: ls ++ [(_indentAmount w', "")])%list
        with (((_indentAmount w', functionLine f) :: ls)
                ++ [(_indentAmount w', "")])%list.
      rewrite app_assoc, !renderLog_app, !renderLog_blank.
      reflexivity.
Qed.

(** ** Rejected classes *)

Lemma rejected_not_public (name : string) :
  isPrivateName name = true \/ isProtectedName name = true ->
  isPublicName name = false.
Proof.
  unfold isPublicName. intros [H|H]; rewrite H; simpl;
    [apply andb_false_r | reflexivity].
Qed.

(** C3, as the code has it: a class rejected by the visibility filter is
    skipped with its whole body, whatever the body holds: the writer is
    left as it was, and the traversal goes on with the siblings. *)
Theorem rejected_class_is_skipped
    (c : ClassNode ExpressionNode) (suite rest : list Node) (w : Writer) :
  isPrivateName (nameToken_value (cls_name c)) = true
  \/ isProtectedName (nameToken_value (cls_name c)) = true ->
  (forall children, visitClass children c w = (false, w))
  /\ walk (ClassN c suite) w = w
  /\ walkChildren (ClassN c suite :: rest) w = walkChildren rest w.
Proof.
  intros H. apply rejected_not_public in H.
  assert (E : walk (ClassN c suite) w = w)
    by now rewrite walk_class, visitClass_rejected.
  split; [intros children; now apply visitClass_rejected|].
  split; [exact E|]. now rewrite walkChildren_cons, E.
Qed.

(** ** Nested functions *)

Lemma visitClass_ext (ch1 ch2 : Writer -> Writer)
    (c : ClassNode ExpressionNode) (w : Writer) :
  (forall w1, _functionNestCount w1 = _functionNestCount w -> ch1 w1 = ch2 w1) ->
  visitClass ch1 c w = visitClass ch2 c w.
Proof.
  intros H. unfold visitClass.
  destruct (negb _ && negb _); [|reflexivity].
  cbv zeta. unfold _emitSuite, _increaseIndent. cbv zeta beta.
  rewrite H; [reflexivity|].
  destruct (header_counters (cls_decorators c) (classLine c) w) as (_ & _ & Hf).
  exact Hf.
Qed.

Lemma visitFunction_ext (ch1 ch2 : Writer -> Writer)
    (f : FunctionNode ExpressionNode) (w : Writer) :
  (forall w1, _functionNestCount w1 = _functionNestCount w + 1 ->
              ch1 w1 = ch2 w1) ->
  visitFunction ch1 f w = visitFunction ch2 f w.
Proof.
  intros H. unfold visitFunction.
  destruct (_ && negb _); [|reflexivity].
  cbv zeta. unfold _emitSuite, _increaseIndent. cbv zeta beta.
  rewrite H; [reflexivity|].
  destruct (header_counters (fn_decorators f) (functionLine f) w)
    as (_ & _ & Hf).
  simpl. simpl in Hf. now rewrite Hf.
Qed.

Lemma walk_functionNestCount (node : Node) (w : Writer) :
  _functionNestCount (walk node w) = _functionNestCount w.
Proof.
  destruct (walk_emits node w) as [l [(_ & _ & _ & _ & _ & _ & F & _) _]].
  exact F.
Qed.

Lemma walkChildren_erase (children : list Node) :
  Forall (fun n => forall w, 0 < _functionNestCount w ->
                             walk n w = walkChildren (eraseFunctions n) w)
         children ->
  forall w, 0 < _functionNestCount w ->
            walkChildren children w
            = walkChildren (flat_map eraseFunctions children) w.
Proof.
  induction 1 as [|n rest Hn _ IH]; intros w Hw; [reflexivity|].
  simpl flat_map. rewrite walkChildren_cons, walkChildren_app.
  rewrite <- (Hn w Hw). apply IH.
  now rewrite walk_functionNestCount.
Qed.

Lemma walk_erase (node : Node) :
  forall w, 0 < _functionNestCount w ->
            walk node w = walkChildren (eraseFunctions node) w.
Proof.
  induction node as [c suite IH|f suite IH|i|i|children IH]
    using ParseNode_ind; intros w Hw; simpl eraseFunctions;
    rewrite ?walkChildren_cons, ?walkChildren_nil.
  - rewrite !walk_class. f_equal. apply visitClass_ext.
    intros w1 Hw1. apply walkChildren_erase; [exact IH|lia].
  - rewrite walk_function, visitFunction_rejected; [reflexivity|left; lia].
  - reflexivity.
  - reflexivity.
  - rewrite !walk_other. now apply walkChildren_erase.
Qed.

Lemma walkChildren_erase_all (children : list Node) (w : Writer) :
  0 < _functionNestCount w ->
  walkChildren children w = walkChildren (flat_map eraseFunctions children) w.
Proof.
  apply walkChildren_erase. apply Forall_forall. intros n _. apply walk_erase.
Qed.

(** C5: inside a function ([_functionNestCount] above zero) a function
    definition is neither rendered nor entered, whatever its name, and the
    statements there are walked as if every function definition, at any
    depth, had been taken out; so the rendering of a function does not
    depend on the function definitions in its body. *)
Theorem nested_functions_are_erased
    (inner : FunctionNode ExpressionNode) (innerSuite children : list Node)
    (w : Writer)
    (outer : FunctionNode ExpressionNode) (outerSuite : list Node)
    (w0 : Writer) :
  0 < _functionNestCount w ->
  (forall callback, visitFunction callback inner w = (false, w))
  /\ walk (FunctionN inner innerSuite) w = w
  /\ walkChildren children w
     = walkChildren (flat_map eraseFunctions children) w
  /\ walk (FunctionN outer outerSuite) w0
     = walk (FunctionN outer (flat_map eraseFunctions outerSuite)) w0.
Proof.
  intros Hw. split; [|split; [|split]].
  - intros callback. apply visitFunction_rejected. left; lia.
  - rewrite walk_function, visitFunction_rejected; [reflexivity|left; lia].
  - now apply walkChildren_erase_all.
  - rewrite !walk_function. f_equal.
    destruct (Z.eq_dec (_functionNestCount w0) 0) as [H0|H0].
    + apply visitFunction_ext. intros w1 Hw1.
      apply walkChildren_erase_all. lia.
    + now rewrite !visitFunction_rejected by (left; exact H0).
Qed.

(** ** Visibility filtering *)

Lemma append_inj_l (a x y : string) : a ++ x = a ++ y -> x = y.
Proof.
  induction a as [|ch a IH]; simpl; intros H; [exact H|].
  injection H as H. now apply IH.
Qed.

Lemma classLine_form (c : ClassNode ExpressionNode) :
  exists d r, (d = "("%char \/ d = ":"%char)
              /\ classLine c
                 = "class " ++ nameToken_value (cls_name c) ++ String d r.
Proof.
  unfold classLine. destruct (0 <? _).
  - exists "("%char. eexists. split; [now left|].
    rewrite !append_assoc. simpl. reflexivity.
  - exists ":"%char, "". split; [now right|].
    rewrite !append_assoc. reflexivity.
Qed.

Lemma functionLine_form (f : FunctionNode ExpressionNode) :
  exists r, functionLine f
            = (if isAsync f then "async def " else "def ")
              ++ nameToken_value (fn_name f) ++ String "(" r.
Proof.
  unfold functionLine.
  destruct (returnTypeAnnotation f); eexists;
    rewrite !append_assoc; destruct (isAsync f); simpl; reflexivity.
Qed.

Lemma startsWith_name_delimiter (keyword name other : string)
    (d d' : ascii) (r : string) :
  isIdentifier name = true -> isIdentifier other = true ->
  (d = "("%char \/ d = ":"%char) -> (d' = "("%char \/ d' = ":"%char) ->
  startsWith (keyword ++ name ++ String d "") (keyword ++ other ++ String d' r)
  = true ->
  name = other.
Proof.
  intros Hn Ho Hd Hd' H.
  apply startsWith_inv in H as [rest E].
  rewrite !append_assoc in E. apply append_inj_l in E. simpl in E.
  symmetry. exact (identifier_prefix_unique _ _ _ _ _ _ Ho Hn Hd' Hd E).
Qed.

Lemma public_not_rejected (name : string) :
  isPublicName name = true ->
  isPrivateName name = true \/ isProtectedName name = true -> False.
Proof.
  intros Hp Hr. rewrite (rejected_not_public _ Hr) in Hp. discriminate.
Qed.

(** No line the writer can log is the header of a class or function with a
    rejected name. *)
Lemma EngineLine_not_rejected (name line : string) :
  EngineLine line ->
  isPrivateName name = true \/ isProtectedName name = true ->
  isIdentifier name = true ->
  isClassDeclarationOf name line = false
  /\ isFunctionDeclarationOf name line = false.
Proof.
  intros HL Hrej Hid.
  unfold isClassDeclarationOf, isFunctionDeclarationOf.
  destruct HL as [ | | | |d|c Hpub Hcid|f Hpub Hfid|rest|rest];
    try (split; reflexivity).
  - unfold decoratorLine. destruct (dec_arguments d); split; reflexivity.
  - split; [|destruct (classLine_form c) as (d & r & _ & ->); reflexivity].
    destruct (classLine_form c) as (d & r & Hd & ->).
    apply orb_false_iff; split; apply not_true_is_false; intros H;
      apply (startsWith_name_delimiter "class ") in H; auto;
      subst name; exact (public_not_rejected _ Hpub Hrej).
  - destruct (functionLine_form f) as (r & ->).
    split; [destruct (isAsync f); reflexivity|].
    destruct (isAsync f).
    + apply orb_false_iff; split; [reflexivity|].
      apply not_true_is_false; intros H.
      apply (startsWith_name_delimiter "async def ") in H; auto.
      subst name; exact (public_not_rejected _ Hpub Hrej).
    + apply orb_false_iff; split; [|reflexivity].
      apply not_true_is_false; intros H.
      apply (startsWith_name_delimiter "def ") in H; auto.
      subst name; exact (public_not_rejected _ Hpub Hrej).
Qed.

(** Every logged line has one of the shapes of [EngineLine]. *)
Local Abbreviation LogOk w :=
  (Forall (fun entry : Z * string => EngineLine (snd entry)) (emitLog w)).

Lemma LogOk_emitLine (line : string) (w : Writer) :
  EngineLine line -> LogOk w -> LogOk (_emitLine line w).
Proof.
  intros HL Hw. simpl. apply Forall_app; split; [exact Hw|].
  constructor; [exact HL | constructor].
Qed.

Lemma LogOk_emitDecorators decorators (w : Writer) :
  LogOk w -> LogOk (_emitDecorators decorators w).
Proof.
  revert w; induction decorators as [|d rest IH]; intros w Hw; [exact Hw|].
  unfold _emitDecorators in *; simpl. apply IH.
  apply LogOk_emitLine; [constructor | exact Hw].
Qed.

Lemma LogOk_emitSuite (callback : Writer -> Writer) (w : Writer) :
  (forall w1, LogOk w1 -> LogOk (callback w1)) ->
  LogOk w -> LogOk (_emitSuite callback w).
Proof.
  intros Hcb Hw. unfold _emitSuite, _increaseIndent. cbv zeta beta.
  set (w1 := set_emittedSuite false (set_indentAmount (_indentAmount w + 1) w)).
  assert (H1 : LogOk (callback w1)) by (apply Hcb; exact Hw).
  destruct (negb (_emittedSuite (callback w1))); simpl.
  - apply Forall_app; split; [exact H1|].
    constructor; [constructor | constructor].
  - exact H1.
Qed.

Lemma LogOk_visitClass (children : Writer -> Writer)
    (c : ClassNode ExpressionNode) (w : Writer) :
  isIdentifier (nameToken_value (cls_name c)) = true ->
  (forall w1, LogOk w1 -> LogOk (children w1)) ->
  LogOk w -> LogOk (snd (visitClass children c w)).
Proof.
  intros Hid Hch Hw. unfold visitClass.
  destruct (negb _ && negb _) eqn:Hpub; [|exact Hw].
  cbv zeta. simpl snd.
  do 2 (apply LogOk_emitLine; [constructor|]).
  apply LogOk_emitSuite.
  - intros w1 H1. apply (Hch (set_classNestCount (_classNestCount w1 + 1) w1)).
    exact H1.
  - apply LogOk_emitLine; [now constructor|].
    apply LogOk_emitDecorators. exact Hw.
Qed.

Lemma LogOk_visitFunction (children : Writer -> Writer)
    (f : FunctionNode ExpressionNode) (w : Writer) :
  isIdentifier (nameToken_value (fn_name f)) = true ->
  (forall w1, LogOk w1 -> LogOk (children w1)) ->
  LogOk w -> LogOk (snd (visitFunction children f w)).
Proof.
  intros Hid Hch Hw. unfold visitFunction.
  destruct (_ && negb _) eqn:Hacc; [|exact Hw].
  rewrite <- andb_assoc in Hacc. apply andb_true_iff in Hacc as [_ Hpub].
  cbv zeta. simpl snd.
  apply LogOk_emitLine; [constructor|].
  apply LogOk_emitSuite.
  - intros w1 H1.
    apply (Hch (set_functionNestCount (_functionNestCount w1 + 1) w1)).
    exact H1.
  - apply LogOk_emitLine; [now constructor|].
    apply LogOk_emitDecorators. exact Hw.
Qed.

Lemma LogOk_walkChildren (children : list Node) :
  Forall (fun n => namesAreIdentifiers n = true ->
                   forall w, LogOk w -> LogOk (walk n w)) children ->
  forallb namesAreIdentifiers children = true ->
  forall w, LogOk w -> LogOk (walkChildren children w).
Proof.
  induction 1 as [|n rest Hn _ IH]; intros Hall w Hw; [exact Hw|].
  simpl in Hall. apply andb_true_iff in Hall as [H1 H2].
  rewrite walkChildren_cons. apply IH; [exact H2|]. now apply Hn.
Qed.

Lemma LogOk_walk (node : Node) :
  namesAreIdentifiers node = true ->
  forall w, LogOk w -> LogOk (walk node w).
Proof.
  induction node as [c suite IH|f suite IH|i|i|children IH]
    using ParseNode_ind; intros Hid w Hw; simpl in Hid.
  - apply andb_true_iff in Hid as [Hc Hs].
    rewrite walk_class. apply LogOk_visitClass; auto.
    now apply LogOk_walkChildren.
  - apply andb_true_iff in Hid as [Hf Hs].
    rewrite walk_function. apply LogOk_visitFunction; auto.
    now apply LogOk_walkChildren.
  - rewrite walk_import. unfold visitImport.
    destruct (_ || _); [exact Hw|].
    apply LogOk_emitLine; [constructor | exact Hw].
  - rewrite walk_importFrom. unfold visitImportFrom.
    destruct (_ || _); [exact Hw|]. simpl snd.
    apply LogOk_emitLine; [|exact Hw].
    destruct (isWildcardImport i); rewrite !append_assoc;
      apply LineImportFrom.
  - rewrite walk_other. now apply LogOk_walkChildren.
Qed.

Lemma Appends_emitHeaderDocString (w : Writer) :
  Appends w (_emitHeaderDocString w)
    [(_indentAmount w, tripleQuote);
     (_indentAmount w, "This type stub file was generated by pyright.");
     (_indentAmount w, tripleQuote); (_indentAmount w, "")].
Proof.
  unfold _emitHeaderDocString.
  exact (Appends_trans _ _ _ [_] _ (Appends_emitLine _ w)
           (Appends_trans _ _ _ [_] _ (Appends_emitLine _ _)
              (Appends_trans _ _ _ [_] _ (Appends_emitLine _ _)
                 (Appends_emitLine _ _)))).
Qed.

(** C2: in the output of a run, no line is the header [class <name>] or
    [def <name>] of a name the classifier reports as private or protected;
    the lines are those of the log, whose rendering is the text of the
    buffer, the text handed to [fs.writeFileSync] and, when that call does
    not throw, the content of the destination. *)
Theorem rejected_names_are_not_declared
    (path : string) (sourceFile : SourceFile ExpressionNode)
    (parseResults : ParseResults ExpressionNode) (fs : FileSystem)
    (name : string) :
  getParseResults sourceFile = Some parseResults ->
  namesAreIdentifiers (parseTree parseResults) = true ->
  isIdentifier name = true ->
  isPrivateName name = true \/ isProtectedName name = true ->
  exists w' outcome,
    write (newTypeStubWriter path sourceFile) fs = Some (w', outcome)
    /\ outcome = writeFileSync path (_typeStubText w') fs
    /\ (forall fs', outcome = Some fs' ->
                    readFile fs' path = Some (_typeStubText w'))
    /\ _typeStubText w'
       = renderLog (_tab w') (_lineEnd w') (emitLog w')
    /\ forall entry, In entry (emitLog w') ->
         isClassDeclarationOf name (snd entry) = false
         /\ isFunctionDeclarationOf name (snd entry) = false.
Proof.
  intros Hpr Hids Hid Hrej.
  unfold write. simpl _sourceFile. rewrite Hpr.
  set (w0 := set_formatting (predominantLineEndSequence parseResults)
               (predominantTabSequence parseResults)
               (newTypeStubWriter path sourceFile)).
  set (w1 := _emitHeaderDocString w0).
  set (w2 := walk (parseTree parseResults) w1).
  exists w2, (_writeFile w2 fs).
  pose proof (Appends_emitHeaderDocString w0) as H1. fold w1 in H1.
  destruct (walk_emits (parseTree parseResults) w1) as [l [H2 _]].
  fold w2 in H2.
  pose proof (Appends_trans _ _ _ _ _ H1 H2) as H.
  assert (HP : _typingsPath w2 = path) by (destruct H as (P & _); exact P).
  split; [reflexivity|].
  split; [unfold _writeFile; now rewrite HP|].
  split; [|split].
  - unfold _writeFile. rewrite HP. intros fs' Hfs.
    exact (proj1 (proj2 (writeFileSync_stores _ _ _ _ Hfs))).
  - destruct H as (_ & _ & E & T & _ & _ & _ & L & X & _).
    rewrite X, L, E, T. reflexivity.
  - assert (Hok : LogOk w2).
    { apply LogOk_walk; [exact Hids|].
      rewrite (Appends_log _ _ _ H1). simpl.
      repeat constructor. }
    intros entry Hin.
    apply (EngineLine_not_rejected name (snd entry)); auto.
    exact (proj1 (Forall_forall _ _) Hok entry Hin).
Qed.

(** ** Determinism *)

(** The destination path is carried along and never read by the
    traversal. *)
Local Abbreviation Commutes path g :=
  (forall x : Writer, g (set_typingsPath path x) = set_typingsPath path (g x)).

Lemma emitDecorators_commutes (path : string) decorators :
  Commutes path (_emitDecorators decorators).
Proof.
  induction decorators as [|d rest IH]; intros x; [reflexivity|].
  unfold _emitDecorators in *; simpl. rewrite <- IH. reflexivity.
Qed.

Lemma emitSuite_commutes (path : string) (callback : Writer -> Writer) :
  Commutes path callback -> Commutes path (_emitSuite callback).
Proof.
  intros Hcb x. unfold _emitSuite, _increaseIndent. cbv zeta beta.
  change (set_emittedSuite false
            (set_indentAmount (_indentAmount (set_typingsPath path x) + 1)
               (set_typingsPath path x)))
    with (set_typingsPath path
            (set_emittedSuite false (set_indentAmount (_indentAmount x + 1) x))).
  rewrite Hcb.
  destruct (_emittedSuite
              (callback (set_emittedSuite false
                           (set_indentAmount (_indentAmount x + 1) x))))
    eqn:Hflag; simpl; rewrite Hflag; reflexivity.
Qed.

Lemma visitClass_commutes (path : string) (children : Writer -> Writer)
    (c : ClassNode ExpressionNode) :
  Commutes path children ->
  Commutes path (fun w => snd (visitClass children c w)).
Proof.
  intros Hch x. unfold visitClass.
  destruct (negb _ && negb _); [|reflexivity].
  cbv zeta. simpl snd.
  change (set_emittedSuite true (set_typingsPath path x))
    with (set_typingsPath path (set_emittedSuite true x)).
  rewrite emitDecorators_commutes.
  change (_emitLine (classLine c)
            (set_typingsPath path
               (_emitDecorators (cls_decorators c) (set_emittedSuite true x))))
    with (set_typingsPath path
            (_emitLine (classLine c)
               (_emitDecorators (cls_decorators c) (set_emittedSuite true x)))).
  rewrite (emitSuite_commutes path (classCallback children)).
  - reflexivity.
  - intros y. cbv beta.
    change (set_classNestCount (_classNestCount (set_typingsPath path y) + 1)
              (set_typingsPath path y))
      with (set_typingsPath path
              (set_classNestCount (_classNestCount y + 1) y)).
    rewrite Hch. reflexivity.
Qed.

Lemma visitFunction_commutes (path : string) (children : Writer -> Writer)
    (f : FunctionNode ExpressionNode) :
  Commutes path children ->
  Commutes path (fun w => snd (visitFunction children f w)).
Proof.
  intros Hch x. unfold visitFunction.
  change (_functionNestCount (set_typingsPath path x))
    with (_functionNestCount x).
  destruct (_ && negb _); [|reflexivity].
  cbv zeta. simpl snd.
  change (set_emittedSuite true (set_typingsPath path x))
    with (set_typingsPath path (set_emittedSuite true x)).
  rewrite emitDecorators_commutes.
  change (_emitLine (functionLine f)
            (set_typingsPath path
               (_emitDecorators (fn_decorators f) (set_emittedSuite true x))))
    with (set_typingsPath path
            (_emitLine (functionLine f)
               (_emitDecorators (fn_decorators f) (set_emittedSuite true x)))).
  rewrite (emitSuite_commutes path
             (fun w2 : Writer =>
                set_functionNestCount
                  (_functionNestCount
                     (children
                        (set_functionNestCount (_functionNestCount w2 + 1) w2)) - 1)
                  (children
                     (set_functionNestCount (_functionNestCount w2 + 1) w2)))).
  - reflexivity.
  - intros y. cbv beta.
    change (set_functionNestCount
              (_functionNestCount (set_typingsPath path y) + 1)
              (set_typingsPath path y))
      with (set_typingsPath path
              (set_functionNestCount (_functionNestCount y + 1) y)).
    rewrite Hch. reflexivity.
Qed.

Lemma walkChildren_commutes (path : string) (children : list Node) :
  Forall (fun n => Commutes path (walk n)) children ->
  Commutes path (walkChildren children).
Proof.
  induction 1 as [|n rest Hn _ IH]; intros x; [reflexivity|].
  now rewrite !walkChildren_cons, Hn, IH.
Qed.

Lemma walk_commutes (path : string) (node : Node) :
  Commutes path (walk node).
Proof.
  induction node as [c suite IH|f suite IH|i|i|children IH]
    using ParseNode_ind; intros x.
  - rewrite !walk_class.
    apply (visitClass_commutes path (walkChildren suite) c).
    now apply walkChildren_commutes.
  - rewrite !walk_function.
    apply (visitFunction_commutes path (walkChildren suite) f).
    now apply walkChildren_commutes.
  - rewrite !walk_import. unfold visitImport.
    change (_functionNestCount (set_typingsPath path x))
      with (_functionNestCount x).
    change (_classNestCount (set_typingsPath path x))
      with (_classNestCount x).
    destruct (_ || _); reflexivity.
  - rewrite !walk_importFrom. unfold visitImportFrom.
    change (_functionNestCount (set_typingsPath path x))
      with (_functionNestCount x).
    change (_classNestCount (set_typingsPath path x))
      with (_classNestCount x).
    destruct (_ || _); reflexivity.
  - rewrite !walk_other. now apply walkChildren_commutes.
Qed.

(** C9: two runs of the writer on the same source file (the same parse
    tree, line end and tab), each on a writer of its own, produce the same
    text, whatever the destination paths and whatever the file system held
    before; each run hands that text to [fs.writeFileSync] and, when the
    call does not throw, leaves it at its destination. *)
Theorem write_is_deterministic
    (sourceFile : SourceFile ExpressionNode)
    (parseResults : ParseResults ExpressionNode)
    (path1 path2 : string) (fs1 fs2 : FileSystem) :
  getParseResults sourceFile = Some parseResults ->
  exists w1 outcome1 w2 outcome2,
    write (newTypeStubWriter path1 sourceFile) fs1 = Some (w1, outcome1)
    /\ write (newTypeStubWriter path2 sourceFile) fs2 = Some (w2, outcome2)
    /\ _typeStubText w1 = _typeStubText w2
    /\ outcome1 = writeFileSync path1 (_typeStubText w1) fs1
    /\ outcome2 = writeFileSync path2 (_typeStubText w2) fs2
    /\ (forall fs1', outcome1 = Some fs1' ->
                     readFile fs1' path1 = Some (_typeStubText w1))
    /\ (forall fs2', outcome2 = Some fs2' ->
                     readFile fs2' path2 = Some (_typeStubText w2)).
Proof.
  intros Hpr. unfold write. simpl _sourceFile. rewrite Hpr.
  set (run := fun path =>
         walk (parseTree parseResults)
           (_emitHeaderDocString
              (set_formatting (predominantLineEndSequence parseResults)
                 (predominantTabSequence parseResults)
                 (newTypeStubWriter path sourceFile)))).
  assert (Hrun : forall path, run path = set_typingsPath path (run path1)).
  { intros path. unfold run. rewrite <- walk_commutes. reflexivity. }
  assert (Hpath : forall path, _typingsPath (run path) = path).
  { intros path. rewrite (Hrun path). reflexivity. }
  assert (Hstore : forall path fs fs',
             _writeFile (run path) fs = Some fs' ->
             readFile fs' path = Some (_typeStubText (run path))).
  { intros path fs fs' H. unfold _writeFile in H. rewrite Hpath in H.
    exact (proj1 (proj2 (writeFileSync_stores _ _ _ _ H))). }
  exists (run path1), (_writeFile (run path1) fs1),
         (run path2), (_writeFile (run path2) fs2).
  split; [reflexivity|]. split; [reflexivity|].
  split; [rewrite (Hrun path2); reflexivity|].
  split; [unfold _writeFile; now rewrite Hpath|].
  split; [unfold _writeFile; now rewrite Hpath|].
  split; intros fs' H; [exact (Hstore path1 fs1 fs' H)
                        | exact (Hstore path2 fs2 fs' H)].
Qed.

End Properties.

(** * The properties on the sample inputs *)

Lemma suite_is_never_empty_witness :
  isPublicName (collaborators := pyCollaborators) "Shape" = true
  /\ isPublicName (collaborators := pyCollaborators) "area" = true
  /\ _functionNestCount (sampleWriter sampleModule) = 0
  /\ forallb isFilteredMember filteredBody = true
  /\ emitLog (walk (ClassN (plainClass "Shape") filteredBody)
                   (sampleWriter sampleModule))
     = [(0, "class Shape:"); (1, "..."); (0, ""); (0, "")].
Proof.
  repeat (split; [reflexivity|]).
  destruct (suite_is_never_empty (collaborators := pyCollaborators)
              (plainClass "Shape") filteredBody (sampleWriter sampleModule)
              (plainFunction "area" [simpleParam "self"]) []
              (sampleWriter sampleModule)
              eq_refl eq_refl eq_refl) as (_ & _ & H).
  destruct (H eq_refl ltac:(simpl; lia)) as [HL _].
  exact HL.
Defined.

Lemma rejected_names_are_not_declared_witness :
  namesAreIdentifiers sampleModule = true
  /\ isIdentifier "_helper" = true
  /\ pyIsProtectedName "_helper" = true
  /\ exists w' outcome,
       write (sampleWriter sampleModule) emptyFs = Some (w', outcome)
       /\ outcome = writeFileSync "out.pyi" (_typeStubText w') emptyFs
       /\ (forall fs', outcome = Some fs' ->
                       readFile fs' "out.pyi" = Some (_typeStubText w'))
       /\ _typeStubText w' = renderLog (_tab w') (_lineEnd w') (emitLog w')
       /\ forall entry, In entry (emitLog w') ->
            isClassDeclarationOf "_helper" (snd entry) = false
            /\ isFunctionDeclarationOf "_helper" (snd entry) = false.
Proof.
  repeat (split; [reflexivity|]).
  apply (rejected_names_are_not_declared (collaborators := pyCollaborators)
           "out.pyi" (sampleSource sampleModule)
           {| parseTree := sampleModule;
              predominantLineEndSequence := String "010" "";
              predominantTabSequence := "  " |}
           emptyFs "_helper").
  - reflexivity.
  - reflexivity.
  - reflexivity.
  - right. reflexivity.
Defined.

Lemma rejected_class_is_skipped_witness :
  pyIsProtectedName "_Hidden" = true
  /\ (forall children,
        visitClass children (plainClass "_Hidden") (sampleWriter sampleModule)
        = (false, sampleWriter sampleModule))
  /\ walk (ClassN (plainClass "_Hidden") hiddenBody) (sampleWriter sampleModule)
     = sampleWriter sampleModule
  /\ walkChildren [ClassN (plainClass "_Hidden") hiddenBody;
                   FunctionN (plainFunction "after" []) []]
                  (sampleWriter sampleModule)
     = walkChildren [FunctionN (plainFunction "after" []) []]
                    (sampleWriter sampleModule).
Proof.
  split; [reflexivity|].
  apply (rejected_class_is_skipped (collaborators := pyCollaborators)
           (plainClass "_Hidden") hiddenBody
           [FunctionN (plainFunction "after" []) []]
           (sampleWriter sampleModule)).
  right. reflexivity.
Defined.

(** C3, as stated, fails: walking the body of the protected class [_Hidden]
    would log the header of its public method, and the walk of the class
    logs nothing. *)
Lemma rejected_class_body_is_not_walked :
  pyIsProtectedName "_Hidden" = true
  /\ emitLog (walkChildren hiddenBody (sampleWriter sampleModule))
     = [(0, "def visible(self):"); (1, "..."); (0, "")]
  /\ emitLog (walk (ClassN (plainClass "_Hidden") hiddenBody)
                   (sampleWriter sampleModule))
     = []
  /\ walk (ClassN (plainClass "_Hidden") hiddenBody) (sampleWriter sampleModule)
     <> walkChildren hiddenBody (sampleWriter sampleModule).
Proof.
  repeat (split; [reflexivity|]).
  intros H. apply (f_equal emitLog) in H. discriminate H.
Qed.

Lemma nested_functions_are_erased_witness :
  0 < _functionNestCount writerInFunction
  /\ (forall callback,
        visitFunction callback (plainFunction "inner" []) writerInFunction
        = (false, writerInFunction))
  /\ walk (FunctionN (plainFunction "inner" [])
                     [FunctionN (plainFunction "innermost" []) []])
          writerInFunction
     = writerInFunction
  /\ walkChildren nestedBody writerInFunction
     = walkChildren (flat_map eraseFunctions nestedBody) writerInFunction
  /\ walk (FunctionN (plainFunction "outer" []) nestedBody)
          (sampleWriter sampleModule)
     = walk (FunctionN (plainFunction "outer" [])
                       (flat_map eraseFunctions nestedBody))
            (sampleWriter sampleModule).
Proof.
  split; [reflexivity|].
  apply (nested_functions_are_erased (collaborators := pyCollaborators)).
  reflexivity.
Defined.

(** C6 fails on the code: [_printArgument] renders the unpack sigils, and
    the renderer written inline in [visitClass] drops them from the class
    header. *)
Lemma class_header_drops_unpack_sigils :
  _printArgument starArgument = "*bases"
  /\ _printArgument doubleStarArgument = "**options"
  /\ classLine mixedClass = "class Mixed(bases, options):"
  /\ emitLog (walk (ClassN mixedClass []) (sampleWriter sampleModule))
     = [(0, "class Mixed(bases, options):"); (1, "..."); (0, ""); (0, "")].
Proof. repeat split; reflexivity. Qed.

Lemma blank_lines_follow_suites_witness :
  isPublicName (collaborators := pyCollaborators) "Shape" = true
  /\ isPublicName (collaborators := pyCollaborators) "area" = true
  /\ _functionNestCount (sampleWriter sampleModule) = 0
  /\ (exists lsuite,
         emitLog (walk (ClassN (plainClass "Shape") hiddenBody)
                       (sampleWriter sampleModule))
         = ((0, "class Shape:") :: lsuite ++ [(0, ""); (0, "")])%list
         /\ Forall (fun entry => 1 <= fst entry) lsuite)
  /\ (exists lsuite,
         emitLog (walk (FunctionN (plainFunction "area" [simpleParam "self"])
                                  nestedBody)
                       (sampleWriter sampleModule))
         = ((0, "def area(self):") :: lsuite ++ [(0, "")])%list
         /\ Forall (fun entry => 1 <= fst entry) lsuite).
Proof.
  repeat (split; [reflexivity|]).
  destruct (blank_lines_follow_suites (collaborators := pyCollaborators)
              (plainClass "Shape") hiddenBody (sampleWriter sampleModule)
              (plainFunction "area" [simpleParam "self"]) nestedBody
              (sampleWriter sampleModule)
              eq_refl eq_refl eq_refl)
    as [(lc & _ & Dc & Lc & _) (lf & _ & Df & Lf & _)].
  split; [exists lc | exists lf]; split; assumption.
Defined.

Lemma write_is_deterministic_witness :
  getParseResults (sampleSource sampleModule)
  = Some {| parseTree := sampleModule;
            predominantLineEndSequence := String "010" "";
            predominantTabSequence := "  " |}
  /\ exists w1 outcome1 w2 outcome2,
       write (newTypeStubWriter "a.pyi" (sampleSource sampleModule)) emptyFs
       = Some (w1, outcome1)
       /\ write (newTypeStubWriter "b.pyi" (sampleSource sampleModule)) staleFs
          = Some (w2, outcome2)
       /\ _typeStubText w1 = _typeStubText w2
       /\ outcome1 = writeFileSync "a.pyi" (_typeStubText w1) emptyFs
       /\ outcome2 = writeFileSync "b.pyi" (_typeStubText w2) staleFs
       /\ (forall fs1', outcome1 = Some fs1' ->
                        readFile fs1' "a.pyi" = Some (_typeStubText w1))
       /\ (forall fs2', outcome2 = Some fs2' ->
                        readFile fs2' "b.pyi" = Some (_typeStubText w2)).
Proof.
  split; [reflexivity|].
  apply (write_is_deterministic (collaborators := pyCollaborators)
           (sampleSource sampleModule)
           {| parseTree := sampleModule;
              predominantLineEndSequence := String "010" "";
              predominantTabSequence := "  " |}).
  reflexivity.
Defined.

Lemma wildcard_import_from_line_witness :
  _classNestCount (sampleWriter sampleModule) = 0
  /\ _functionNestCount (sampleWriter sampleModule) = 0
  /\ emitLog (walk (ImportFromN {| from_module := wildcardModule;
                                   isWildcardImport := true;
                                   from_imports :=
                                     [ {| impfrom_name := nm "ignored";
                                          impfrom_alias := None |} ] |})
                   (sampleWriter sampleModule))
     = [(0, "from ..pkg.base import *")]
  /\ _typeStubText
       (walk (ImportFromN {| from_module := wildcardModule;
                             isWildcardImport := true;
                             from_imports :=
                               [ {| impfrom_name := nm "ignored";
                                    impfrom_alias := None |} ] |})
             (sampleWriter sampleModule))
     = "from ..pkg.base import *" ++ String "010" "".
Proof.
  split; [reflexivity|]. split; [reflexivity|].
  destruct (wildcard_import_from_line (collaborators := pyCollaborators)
              wildcardModule
              [ {| impfrom_name := nm "ignored"; impfrom_alias := None |} ]
              (sampleWriter sampleModule) eq_refl eq_refl)
    as (_ & HL & HT).
  split; [exact HL | exact HT].
Defined.

Lemma parameter_default_is_redacted_witness :
  isPublicName (collaborators := pyCollaborators) "scale" = true
  /\ _functionNestCount (sampleWriter sampleModule) = 0
  /\ functionLine defaultsFunction
     = "def scale(self, factor: float = ..., origin=...) -> Shape:"
  /\ exists lsuite,
       emitLog (walk (FunctionN defaultsFunction []) (sampleWriter sampleModule))
       = ((0, "def scale(self, factor: float = ..., origin=...) -> Shape:")
            :: lsuite ++ [(0, "")])%list.
Proof.
  split; [reflexivity|]. split; [reflexivity|].
  destruct (parameter_default_is_redacted (collaborators := pyCollaborators)
              "factor" "float" "5" "0"
              {| category := ParamSimple; param_name := Some (nm "factor");
                 typeAnnotation := Some "float"; defaultValue := Some "5" |}
              defaultsFunction "scale" "origin" []
              (sampleWriter sampleModule))
    as (_ & _ & _ & _ & _ & HF & _ & HE).
  split; [exact HF|].
  destruct (HE eq_refl eq_refl) as (ls & HL & _).
  exists ls. exact HL.
Defined.

(** [write()] keeps the buffer of the writer it is called on: called again
    on a writer that has already run, it appends a second rendering to the
    first.  A run in the sense of [write_is_deterministic] starts from a
    writer of its own. *)
Example write_on_a_used_writer_appends :
  match write (sampleWriter sampleModule) emptyFs with
  | Some (w1, Some fs1) =>
      match write w1 fs1 with
      | Some (w2, _) => _typeStubText w2 = _typeStubText w1 ++ _typeStubText w1
      | None => False
      end
  | _ => False
  end.
Proof. vm_compute. reflexivity. Qed.

(** * Further properties of the writer *)

Section FurtherProperties.
Context {ExpressionNode : Type} {collaborators : Collaborators ExpressionNode}.

Local Abbreviation Writer := (TypeStubWriter ExpressionNode).
Local Abbreviation Node := (ParseNode ExpressionNode).

(** ** Balance and growth *)

Lemma walk_counters (node : Node) (w : Writer) :
  _classNestCount (walk node w) = _classNestCount w
  /\ _functionNestCount (walk node w) = _functionNestCount w.
Proof.
  destruct (walk_emits node w) as [l [(_ & _ & _ & _ & _ & C & F & _) _]].
  auto.
Qed.

(** X1: whatever the node, a walk hands back the indentation, the two
    nesting counters, the formatting, the destination and the source file
    as it found them: every increment is undone on every path. *)
Theorem walk_restores_counters (node : Node) (children : list Node) (w : Writer) :
  (_indentAmount (walk node w) = _indentAmount w
   /\ _classNestCount (walk node w) = _classNestCount w
   /\ _functionNestCount (walk node w) = _functionNestCount w
   /\ _tab (walk node w) = _tab w
   /\ _lineEnd (walk node w) = _lineEnd w
   /\ _typingsPath (walk node w) = _typingsPath w
   /\ _sourceFile (walk node w) = _sourceFile w)
  /\ (_indentAmount (walkChildren children w) = _indentAmount w
      /\ _classNestCount (walkChildren children w) = _classNestCount w
      /\ _functionNestCount (walkChildren children w) = _functionNestCount w).
Proof.
  destruct (walk_emits node w)
    as [l [(P & S & E & T & I & C & F & _) _]].
  destruct (walkChildren_emits_all children w)
    as [l' [(_ & _ & _ & _ & I' & C' & F' & _) _]].
  repeat split; assumption.
Qed.

(** X2: the buffer only grows.  A walk appends to the text exactly the
    rendering of the lines it logs, each of them at the indentation in force
    or deeper; so a text that is the rendering of the log stays so. *)
Theorem text_of_emitLog (node : Node) (w : Writer) :
  (exists l,
      emitLog (walk node w) = (emitLog w ++ l)%list
      /\ _typeStubText (walk node w)
         = _typeStubText w ++ renderLog (_tab w) (_lineEnd w) l
      /\ Forall (fun entry => _indentAmount w <= fst entry) l)
  /\ (_typeStubText w = renderLog (_tab w) (_lineEnd w) (emitLog w) ->
      _typeStubText (walk node w)
      = renderLog (_tab (walk node w)) (_lineEnd (walk node w))
                  (emitLog (walk node w))).
Proof.
  destruct (walk_emits node w)
    as [l [(_ & _ & E & T & _ & _ & _ & L & X & A) _]].
  split.
  - exists l. auto.
  - intros H. rewrite X, L, E, T, renderLog_app, H. reflexivity.
Qed.

(** ** Rejected functions *)

(** X3: a function with a private or protected name is skipped with its
    whole body, classes included, at any nesting: the visitor never calls
    its callback, the writer is left as it was, and the traversal goes on
    with the siblings. *)
Theorem rejected_function_is_skipped
    (f : FunctionNode ExpressionNode) (suite rest : list Node) (w : Writer) :
  isPrivateName (nameToken_value (fn_name f)) = true
  \/ isProtectedName (nameToken_value (fn_name f)) = true ->
  (forall callback, visitFunction callback f w = (false, w))
  /\ walk (FunctionN f suite) w = w
  /\ walkChildren (FunctionN f suite :: rest) w = walkChildren rest w.
Proof.
  intros H. apply rejected_not_public in H.
  assert (E : walk (FunctionN f suite) w = w)
    by (rewrite walk_function, visitFunction_rejected; auto).
  split; [intros callback; apply visitFunction_rejected; auto|].
  split; [exact E|]. now rewrite walkChildren_cons, E.
Qed.

(** ** The shape of a run *)



(** ** Imports *)

Lemma visitClass_ext_counters (ch1 ch2 : Writer -> Writer)
    (c : ClassNode ExpressionNode) (w : Writer) :
  (forall w1, _classNestCount w1 = _classNestCount w + 1 ->
              _functionNestCount w1 = _functionNestCount w ->
              ch1 w1 = ch2 w1) ->
  visitClass ch1 c w = visitClass ch2 c w.
Proof.
  intros H. unfold visitClass.
  destruct (negb _ && negb _); [|reflexivity].
  cbv zeta. unfold _emitSuite, _increaseIndent. cbv zeta beta.
  destruct (header_counters (cls_decorators c) (classLine c) w) as (_ & Hc & Hf).
  rewrite H; [reflexivity| |exact Hf].
  simpl. simpl in Hc. now rewrite Hc.
Qed.

Lemma visitFunction_ext_counters (ch1 ch2 : Writer -> Writer)
    (f : FunctionNode ExpressionNode) (w : Writer) :
  (forall w1, _classNestCount w1 = _classNestCount w ->
              _functionNestCount w1 = _functionNestCount w + 1 ->
              ch1 w1 = ch2 w1) ->
  visitFunction ch1 f w = visitFunction ch2 f w.
Proof.
  intros H. unfold visitFunction.
  destruct (_ && negb _); [|reflexivity].
  cbv zeta. unfold _emitSuite, _increaseIndent. cbv zeta beta.
  destruct (header_counters (fn_decorators f) (functionLine f) w)
    as (_ & Hc & Hf).
  rewrite H; [reflexivity|exact Hc|].
  simpl. simpl in Hf. now rewrite Hf.
Qed.

Lemma import_inside (w : Writer) :
  0 < _classNestCount w \/ 0 < _functionNestCount w ->
  (0 <? _functionNestCount w) || (0 <? _classNestCount w) = true.
Proof.
  intros H. apply orb_true_iff.
  destruct H; [right|left]; now apply Z.ltb_lt.
Qed.

Lemma walkChildren_eraseImports (children : list Node) :
  Forall (fun n => forall w,
              0 < _classNestCount w \/ 0 < _functionNestCount w ->
              walk n w = walkChildren (eraseImports n) w) children ->
  forall w, 0 < _classNestCount w \/ 0 < _functionNestCount w ->
            walkChildren children w
            = walkChildren (flat_map eraseImports children) w.
Proof.
  induction 1 as [|n rest Hn _ IH]; intros w Hw; [reflexivity|].
  simpl flat_map. rewrite walkChildren_cons, walkChildren_app.
  rewrite <- (Hn w Hw). apply IH.
  destruct (walk_counters n w) as [C F].
  now rewrite C, F.
Qed.

Lemma walk_eraseImports (node : Node) :
  forall w, 0 < _classNestCount w \/ 0 < _functionNestCount w ->
            walk node w = walkChildren (eraseImports node) w.
Proof.
  induction node as [c suite IH|f suite IH|i|i|children IH]
    using ParseNode_ind; intros w Hw; simpl eraseImports;
    rewrite ?walkChildren_cons, ?walkChildren_nil.
  - rewrite !walk_class. f_equal. apply visitClass_ext_counters.
    intros w1 Hc Hf. apply walkChildren_eraseImports; [exact IH|lia].
  - rewrite !walk_function. f_equal. apply visitFunction_ext_counters.
    intros w1 Hc Hf. apply walkChildren_eraseImports; [exact IH|lia].
  - rewrite walk_import. unfold visitImport. now rewrite import_inside.
  - rewrite walk_importFrom. unfold visitImportFrom. now rewrite import_inside.
  - rewrite !walk_other. now apply walkChildren_eraseImports.
Qed.

Lemma walkChildren_eraseImports_all (children : list Node) (w : Writer) :
  0 < _classNestCount w \/ 0 < _functionNestCount w ->
  walkChildren children w = walkChildren (flat_map eraseImports children) w.
Proof.
  apply walkChildren_eraseImports. apply Forall_forall.
  intros n _. apply walk_eraseImports.
Qed.

(** X5: import scoping.  Inside a class or a function (one of the nesting
    counters above zero) the two import visitors return the writer
    untouched, and the rendering of a class or of a function is the same
    with every import statement taken out of its body, at any depth. *)
Theorem nested_imports_are_erased
    (c : ClassNode ExpressionNode) (csuite : list Node)
    (f : FunctionNode ExpressionNode) (fsuite : list Node)
    (i : ImportNode) (j : ImportFromNode) (w : Writer) :
  0 <= _classNestCount w ->
  walk (ClassN c csuite) w = walk (ClassN c (flat_map eraseImports csuite)) w
  /\ walk (FunctionN f fsuite) w
     = walk (FunctionN f (flat_map eraseImports fsuite)) w
  /\ (forall w' : Writer,
        0 < _classNestCount w' \/ 0 < _functionNestCount w' ->
        visitImport i w' = (false, w')
                 /\ visitImportFrom j w' = (false, w')).
Proof.
  intros Hc. split; [|split].
  - rewrite !walk_class. f_equal. apply visitClass_ext_counters.
    intros w1 H1 _. apply walkChildren_eraseImports_all. lia.
  - rewrite !walk_function. f_equal.
    destruct (Z.eq_dec (_functionNestCount w) 0) as [H0|H0].
    + apply visitFunction_ext_counters.
      intros w1 _ H1. apply walkChildren_eraseImports_all. lia.
    + now rewrite !visitFunction_rejected by (left; exact H0).
  - intros w' Hw. unfold visitImport, visitImportFrom.
    now rewrite import_inside.
Qed.

Lemma visitImport_module_scope (i : ImportNode) (w : Writer) :
  _classNestCount w = 0 -> _functionNestCount w = 0 ->
  walk (ImportN i) w = _emitLine (importLine i) w.
Proof.
  intros Hc Hf. rewrite walk_import. unfold visitImport.
  now rewrite Hc, Hf.
Qed.

(** X6: at module scope a run of import statements is rendered one line
    per statement, in source order, at the indentation in force, and does
    not raise the suite flag. *)
Theorem module_imports_in_order (imports : list ImportNode) (w : Writer) :
  _classNestCount w = 0 ->
  _functionNestCount w = 0 ->
  emitLog (walkChildren (map ImportN imports) w)
  = (emitLog w
     ++ map (fun i => (_indentAmount w, importLine i)) imports)%list
  /\ _typeStubText (walkChildren (map ImportN imports) w)
     = _typeStubText w
       ++ renderLog (_tab w) (_lineEnd w)
            (map (fun i => (_indentAmount w, importLine i)) imports)
  /\ _emittedSuite (walkChildren (map ImportN imports) w) = _emittedSuite w.
Proof.
  revert w. induction imports as [|i rest IH]; intros w Hc Hf.
  - simpl. rewrite app_nil_r, append_nil_r. auto.
  - simpl map. rewrite walkChildren_cons, visitImport_module_scope; auto.
    destruct (IH (_emitLine (importLine i) w) Hc Hf) as (L & X & F).
    rewrite L, X, F. simpl emitLog. simpl _emittedSuite.
    split; [now rewrite <- app_assoc|]. split; [|reflexivity].
    pose proof (Appends_text _ _ _ (Appends_emitLine (importLine i) w)) as HT.
    rewrite HT. simpl _tab. simpl _lineEnd. simpl _indentAmount.
    rewrite append_assoc.
    change ((_indentAmount w, importLine i)
              :: map (fun i0 => (_indentAmount w, importLine i0)) rest)
      with ([(_indentAmount w, importLine i)]
              ++ map (fun i0 => (_indentAmount w, importLine i0)) rest)%list.
    now rewrite renderLog_app.
Qed.

(** ** Module names *)

Lemma appendDots_indentText (n : nat) (line : string) :
  appendDots n line = line ++ indentText n ".".
Proof.
  revert line; induction n as [|n IH]; intros line; simpl.
  - now rewrite append_nil_r.
  - now rewrite IH, append_assoc.
Qed.

Lemma identifier_char_not_dot (c : ascii) :
  isIdentifierChar c = true -> c <> "."%char.
Proof. intros H ->. vm_compute in H. discriminate. Qed.

(** A text that does not go on with a name: it is empty or starts with a
    dot. *)
Local Abbreviation EndsName s :=
  (s = "" \/ exists rest, s = String "." rest).

(** A text that does not go on with a dot. *)
Local Abbreviation NoDotAhead s :=
  (s = "" \/ exists c rest, s = String c rest /\ c <> "."%char).

Lemma name_split_unique (x y s1 s2 : string) :
  isIdentifier x = true -> isIdentifier y = true ->
  EndsName s1 -> EndsName s2 ->
  x ++ s1 = y ++ s2 -> x = y /\ s1 = s2.
Proof.
  revert y; induction x as [|a x IH]; intros [|b y] Hx Hy H1 H2 E;
    simpl in *.
  - auto.
  - apply andb_true_iff in Hy as [Hb _].
    apply identifier_char_not_dot in Hb.
    destruct H1 as [->|[r ->]]; [discriminate|].
    injection E as E _. congruence.
  - apply andb_true_iff in Hx as [Ha _].
    apply identifier_char_not_dot in Ha.
    destruct H2 as [->|[r ->]]; [discriminate|].
    injection E as E _. congruence.
  - apply andb_true_iff in Hx as [_ Hx].
    apply andb_true_iff in Hy as [_ Hy].
    injection E as -> E.
    destruct (IH y Hx Hy H1 H2 E) as [-> ->]. auto.
Qed.

Lemma concat_dot_cons (x : string) (xs : list string) :
  String.concat "." (x :: xs) = x ++ dottedTail xs.
Proof.
  destruct xs as [|y ys]; simpl; [now rewrite append_nil_r | reflexivity].
Qed.

Lemma dottedTail_EndsName (xs : list string) : EndsName (dottedTail xs).
Proof.
  destruct xs as [|x xs]; [now left|].
  right. exists (String.concat "." (x :: xs)). reflexivity.
Qed.

Lemma namePart_facts (s : string) :
  isNamePart s = true ->
  isIdentifier s = true
  /\ exists c rest, s = String c rest /\ c <> "."%char.
Proof.
  unfold isNamePart. intros H. apply andb_true_iff in H as [Hne Hid].
  split; [exact Hid|].
  destruct s as [|c rest]; [discriminate|].
  exists c, rest. split; [reflexivity|].
  simpl in Hid. apply andb_true_iff in Hid as [Hc _].
  now apply identifier_char_not_dot.
Qed.

Lemma concat_dot_injective (xs ys : list string) :
  forallb isNamePart xs = true -> forallb isNamePart ys = true ->
  String.concat "." xs = String.concat "." ys -> xs = ys.
Proof.
  revert ys; induction xs as [|x xs IH]; intros [|y ys] Hx Hy E.
  - reflexivity.
  - exfalso. simpl in Hy. apply andb_true_iff in Hy as [Hy _].
    destruct (namePart_facts _ Hy) as (_ & c & r & -> & _).
    rewrite concat_dot_cons in E. discriminate.
  - exfalso. simpl in Hx. apply andb_true_iff in Hx as [Hx _].
    destruct (namePart_facts _ Hx) as (_ & c & r & -> & _).
    rewrite concat_dot_cons in E. discriminate.
  - simpl in Hx, Hy.
    apply andb_true_iff in Hx as [Hx Hxs].
    apply andb_true_iff in Hy as [Hy Hys].
    rewrite !concat_dot_cons in E.
    destruct (name_split_unique x y _ _
                (proj1 (namePart_facts _ Hx)) (proj1 (namePart_facts _ Hy))
                (dottedTail_EndsName xs) (dottedTail_EndsName ys) E)
      as [-> Et].
    f_equal. destruct xs as [|x' xs'], ys as [|y' ys']; try discriminate.
    + reflexivity.
    + injection Et as Et. now apply IH.
Qed.

Lemma concat_dot_NoDotAhead (xs : list string) :
  forallb isNamePart xs = true -> NoDotAhead (String.concat "." xs).
Proof.
  destruct xs as [|x xs]; intros H; [now left|].
  simpl in H. apply andb_true_iff in H as [Hx _].
  destruct (namePart_facts _ Hx) as (_ & c & r & -> & Hc).
  right. rewrite concat_dot_cons. simpl. eauto.
Qed.

Lemma dots_split_unique (n m : nat) (s1 s2 : string) :
  NoDotAhead s1 -> NoDotAhead s2 ->
  indentText n "." ++ s1 = indentText m "." ++ s2 -> n = m /\ s1 = s2.
Proof.
  revert m; induction n as [|n IH]; intros [|m] H1 H2 E; simpl in *.
  - auto.
  - destruct H1 as [->|(c & r & -> & Hc)]; [discriminate|].
    injection E as E _. congruence.
  - destruct H2 as [->|(c & r & -> & Hc)]; [discriminate|].
    injection E as E _. congruence.
  - injection E as E. destruct (IH m H1 H2 E) as [-> ->]. auto.
Qed.

(** X7: a module name renders as its leading dots followed by its parts
    joined by dots, and the rendering can be read back: two well-formed
    module names with the same text are the same module name. *)
Theorem printModuleName_injective (a b : ModuleNameNode) :
  isModuleName a = true ->
  isModuleName b = true ->
  _printModuleName a
  = indentText (Z.to_nat (leadingDots a)) "."
    ++ String.concat "." (map nameToken_value (nameParts a))
  /\ (_printModuleName a = _printModuleName b -> a = b).
Proof.
  intros Ha Hb.
  assert (F : forall m, _printModuleName m
                        = indentText (Z.to_nat (leadingDots m)) "."
                          ++ String.concat "." (map nameToken_value (nameParts m))).
  { intros m. unfold _printModuleName. now rewrite appendDots_indentText. }
  split; [apply F|]. rewrite !F. intros E.
  unfold isModuleName in Ha, Hb.
  apply andb_true_iff in Ha as [Da Pa]. apply andb_true_iff in Hb as [Db Pb].
  apply Z.leb_le in Da, Db.
  assert (HM : forall l : list NameNode,
             forallb (fun part => isNamePart (nameToken_value part)) l
             = forallb isNamePart (map nameToken_value l)).
  { induction l as [|p l IHl]; simpl; [reflexivity|now rewrite IHl]. }
  rewrite HM in Pa, Pb.
  pose proof Pa as Pa'. pose proof Pb as Pb'.
  destruct (dots_split_unique _ _ _ _
              (concat_dot_NoDotAhead _ Pa') (concat_dot_NoDotAhead _ Pb') E)
    as [En Ep].
  apply concat_dot_injective in Ep; auto.
  destruct a as [da pa], b as [db pb]; simpl in *.
  f_equal; [lia|].
  clear - Ep. revert pb Ep; induction pa as [|[x] pa IH]; intros [|[y] pb] Ep;
    simpl in Ep; try discriminate; [reflexivity|].
  injection Ep as -> Ep. f_equal. now apply IH.
Qed.

(** ** Classes inside functions *)

Lemma walkChildren_dropped (children : list Node) :
  Forall (fun n => isDroppedInFunction n = true ->
                   forall w, 0 < _functionNestCount w -> walk n w = w)
         children ->
  forallb isDroppedInFunction children = true ->
  forall w, 0 < _functionNestCount w -> walkChildren children w = w.
Proof.
  induction 1 as [|n rest Hn _ IH]; intros Hall w Hw; [reflexivity|].
  simpl in Hall. apply andb_true_iff in Hall as [H1 H2].
  rewrite walkChildren_cons, (Hn H1 w Hw). now apply IH.
Qed.

Lemma walk_dropped (node : Node) :
  isDroppedInFunction node = true ->
  forall w, 0 < _functionNestCount w -> walk node w = w.
Proof.
  induction node as [c suite IH|f suite IH|i|i|children IH]
    using ParseNode_ind; intros Hd w Hw; simpl in Hd.
  - apply negb_true_iff in Hd.
    now rewrite walk_class, visitClass_rejected.
  - rewrite walk_function, visitFunction_rejected; [reflexivity|left; lia].
  - rewrite walk_import. unfold visitImport.
    now rewrite import_inside by (right; exact Hw).
  - rewrite walk_importFrom. unfold visitImportFrom.
    now rewrite import_inside by (right; exact Hw).
  - rewrite walk_other. now apply walkChildren_dropped.
Qed.

Lemma walkChildren_dropped_all (children : list Node) (w : Writer) :
  forallb isDroppedInFunction children = true ->
  0 < _functionNestCount w ->
  walkChildren children w = w.
Proof.
  intros H Hw. apply walkChildren_dropped; auto.
  apply Forall_forall. intros n _. apply walk_dropped.
Qed.

(** X8: [visitClass] does not look at the function counter: a class with a
    public name that is defined inside a function body is rendered, and as
    its methods are functions inside a function, a class that holds only
    methods, imports and rejected classes gets the placeholder for a body. *)
Theorem class_inside_function_is_rendered
    (c : ClassNode ExpressionNode) (suite : list Node) (w : Writer) :
  0 < _functionNestCount w ->
  isPublicName (nameToken_value (cls_name c)) = true ->
  forallb isDroppedInFunction suite = true ->
  emitLog (walk (ClassN c suite) w)
  = (emitLog w
     ++ decoratorLines (_indentAmount w) (cls_decorators c)
     ++ [(_indentAmount w, classLine c); (_indentAmount w + 1, "...");
         (_indentAmount w, ""); (_indentAmount w, "")])%list.
Proof.
  intros Hw Hpub Hall. rewrite walk_class.
  apply (Appends_log w).
  apply (visitClass_frame (walkChildren suite) c w
           [(_indentAmount w + 1, "...")] Hpub).
  cbv zeta.
  destruct (header_counters (cls_decorators c) (classLine c) w)
    as (Hi & _ & Hf).
  cbv zeta in Hi, Hf. rewrite <- Hi.
  apply emitSuite_idle. cbv beta.
  rewrite walkChildren_dropped_all; [|exact Hall|simpl; simpl in Hf; lia].
  unfold set_classNestCount, set_emittedSuite, set_indentAmount; simpl.
  f_equal. lia.
Qed.

(** ** The placeholder *)

(** No line of [l] at indentation [j] is the placeholder. *)
Local Abbreviation Unmarked j l :=
  (Forall (fun entry : Z * string => fst entry = j -> snd entry <> "...") l).














(** The two ways a suite can end: with the placeholder after a callback
    that left the flag down, without it after one that raised the flag. *)
Lemma emitSuite_cases (callback : Writer -> Writer) (w : Writer)
    (l : list (Z * string)) :
  Appends (set_emittedSuite false (set_indentAmount (_indentAmount w + 1) w))
          (callback (set_emittedSuite false
                       (set_indentAmount (_indentAmount w + 1) w))) l ->
  (_emittedSuite (callback (set_emittedSuite false
                              (set_indentAmount (_indentAmount w + 1) w)))
   = false ->
   Appends w (_emitSuite callback w) (l ++ [(_indentAmount w + 1, "...")]))
  /\ (_emittedSuite (callback (set_emittedSuite false
                                 (set_indentAmount (_indentAmount w + 1) w)))
      = true ->
      Appends w (_emitSuite callback w) l).
Proof.
  intros Hl. unfold _emitSuite, _increaseIndent. cbv zeta beta.
  set (w1 := set_emittedSuite false (set_indentAmount (_indentAmount w + 1) w))
    in *.
  split; intros Hflag; rewrite Hflag; simpl negb; cbv iota.
  - pose proof (Appends_emitLine "..." (callback w1)) as HE.
    pose proof (Appends_trans _ _ _ _ _ Hl HE) as HT.
    rewrite (Appends_indent _ _ _ Hl) in HT.
    destruct HT as (P & S & E & T & I & C & F & L & X & A).
    simpl in P, S, E, T, I, C, F, L, X, A.
    unfold Appends; simpl.
    repeat split; auto; try lia.
    revert A; apply Forall_impl; intros; lia.
  - destruct Hl as (P & S & E & T & I & C & F & L & X & A).
    simpl in P, S, E, T, I, C, F, L, X, A.
    unfold Appends; simpl.
    repeat split; auto; try lia.
    revert A; apply Forall_impl; intros; lia.
Qed.


(** ** Decorators and arguments *)

(** X10: [_emitDecorators] logs one line per decorator, in order, at the
    indentation in force, and leaves the suite flag alone.  Each line starts
    with [@]; a decorator without call syntax is a bare reference, one with
    an empty argument list keeps its pair of parentheses, and arguments go
    through [_printArgument], unpack sigils included. *)
Theorem decorators_one_line_each
    (decorators : list (DecoratorNode ExpressionNode)) (w : Writer)
    (target : ExpressionNode) (args : list (ArgumentNode ExpressionNode)) :
  emitLog (_emitDecorators decorators w)
  = (emitLog w
     ++ map (fun d => (_indentAmount w, decoratorLine d)) decorators)%list
  /\ _emittedSuite (_emitDecorators decorators w) = _emittedSuite w
  /\ Forall (fun d => startsWith "@" (decoratorLine d) = true) decorators
  /\ decoratorLine {| leftExpression := target; dec_arguments := None |}
     = "@" ++ printExpression target
  /\ decoratorLine {| leftExpression := target; dec_arguments := Some [] |}
     = "@" ++ printExpression target ++ "()"
  /\ decoratorLine {| leftExpression := target; dec_arguments := Some args |}
     = "@" ++ printExpression target
       ++ "(" ++ String.concat ", " (map _printArgument args) ++ ")".
Proof.
  destruct (Appends_emitDecorators decorators w) as [HA HF].
  split; [exact (Appends_log _ _ _ HA)|]. split; [exact HF|].
  split.
  { apply Forall_forall. intros d _. unfold decoratorLine.
    destruct (dec_arguments d); reflexivity. }
  unfold decoratorLine; simpl. repeat split; reflexivity.
Qed.

Lemma classArgument_simple (a : ArgumentNode ExpressionNode) :
  argumentCategory a = ArgSimple -> classArgument a = _printArgument a.
Proof.
  intros H. unfold classArgument, _printArgument. rewrite H.
  destruct (arg_name a); reflexivity.
Qed.

(** X11: the renderer written inline in [visitClass] is [_printArgument]
    without the unpack sigil: on a class whose arguments are all plain
    (positional or keyword) the header is the one [_printArgument] would
    give, and a class without arguments has no parentheses at all. *)
Theorem class_header_agrees_on_plain_arguments
    (c : ClassNode ExpressionNode) (a : ArgumentNode ExpressionNode) :
  Forall (fun arg => argumentCategory arg = ArgSimple) (cls_arguments c) ->
  classLine c
  = "class " ++ nameToken_value (cls_name c)
    ++ match cls_arguments c with
       | [] => ""
       | args => "(" ++ String.concat ", " (map _printArgument args) ++ ")"
       end
    ++ ":"
  /\ _printArgument a
     = match argumentCategory a with
       | UnpackedList => "*"
       | UnpackedDictionary => "**"
       | ArgSimple => ""
       end ++ classArgument a.
Proof.
  intros Hall. split.
  - unfold classLine.
    assert (E : map classArgument (cls_arguments c)
                = map _printArgument (cls_arguments c)).
    { induction Hall as [|x l Hx _ IH]; simpl; [reflexivity|].
      now rewrite IH, classArgument_simple. }
    rewrite E.
    destruct (cls_arguments c) as [|x l]; simpl length.
    + simpl. now rewrite ?append_assoc.
    + replace (0 <? Z.of_nat (S (List.length l))) with true
        by (symmetry; apply Z.ltb_lt; lia).
      now rewrite !append_assoc.
  - unfold _printArgument, classArgument.
    destruct (argumentCategory a), (arg_name a); simpl;
      rewrite ?append_assoc; reflexivity.
Qed.

(** ** What a traversal depends on *)

(** Two runs of [g] from [a] and [b] log the same lines, and raise the
    flag together or not at all. *)
Local Abbreviation RunsAlike g a b l :=
  (Appends a (g a) l /\ Appends b (g b) l
   /\ ((_emittedSuite (g a) = _emittedSuite a
        /\ _emittedSuite (g b) = _emittedSuite b)
       \/ (_emittedSuite (g a) = true /\ _emittedSuite (g b) = true))).

Local Abbreviation Alike g :=
  (forall a b : Writer, SamePlace a b -> exists l, RunsAlike g a b l).

Lemma SamePlace_after (a b a' b' : Writer) la lb :
  SamePlace a b -> Appends a a' la -> Appends b b' lb -> SamePlace a' b'.
Proof.
  intros (I & C & F & T & E)
         (_ & _ & E1 & T1 & I1 & C1 & F1 & _)
         (_ & _ & E2 & T2 & I2 & C2 & F2 & _).
  unfold SamePlace. repeat split; congruence.
Qed.

Lemma header_appends decorators (line : string) (w : Writer) :
  Appends w
    (_emitLine line (_emitDecorators decorators (set_emittedSuite true w)))
    (decoratorLines (_indentAmount w) decorators ++ [(_indentAmount w, line)]).
Proof.
  pose proof (Appends_set_emittedSuite true w) as H0.
  destruct (Appends_emitDecorators decorators (set_emittedSuite true w))
    as [Hd _].
  pose proof (Appends_emitLine line
                (_emitDecorators decorators (set_emittedSuite true w))) as Hh.
  rewrite (Appends_indent _ _ _ Hd) in Hh.
  exact (Appends_trans _ _ _ _ _ (Appends_trans _ _ _ _ _ H0 Hd) Hh).
Qed.

Lemma emitSuite_alike (callback : Writer -> Writer) (x y : Writer) :
  Alike callback -> SamePlace x y ->
  exists ls, Appends x (_emitSuite callback x) ls
             /\ Appends y (_emitSuite callback y) ls.
Proof.
  intros Hcb Hxy.
  set (x1 := set_emittedSuite false (set_indentAmount (_indentAmount x + 1) x)).
  set (y1 := set_emittedSuite false (set_indentAmount (_indentAmount y + 1) y)).
  assert (H1 : SamePlace x1 y1).
  { destruct Hxy as (I & C & F & T & E).
    unfold SamePlace; simpl. repeat split; congruence. }
  destruct (Hcb x1 y1 H1) as (l & Hx & Hy & Hflag).
  destruct (emitSuite_cases callback x l Hx) as [Xdown Xup].
  destruct (emitSuite_cases callback y l Hy) as [Ydown Yup].
  fold x1 in Xdown, Xup. fold y1 in Ydown, Yup.
  assert (Hi : _indentAmount x = _indentAmount y) by apply Hxy.
  destruct Hflag as [[Fx Fy]|[Fx Fy]].
  - exists (l ++ [(_indentAmount x + 1, "...")])%list. split.
    + apply Xdown. exact Fx.
    + rewrite Hi. apply Ydown. exact Fy.
  - exists l. auto.
Qed.

Lemma classCallback_alike (children : Writer -> Writer) :
  Alike children ->
  Alike (fun w2 : Writer =>
           set_classNestCount
             (_classNestCount
                (children (set_classNestCount (_classNestCount w2 + 1) w2)) - 1)
             (children (set_classNestCount (_classNestCount w2 + 1) w2))).
Proof.
  intros Hch a b Hab.
  assert (H1 : SamePlace (set_classNestCount (_classNestCount a + 1) a)
                         (set_classNestCount (_classNestCount b + 1) b)).
  { destruct Hab as (I & C & F & T & E).
    unfold SamePlace; simpl. repeat split; congruence. }
  destruct (Hch _ _ H1) as (l & Ha & Hb & Hflag).
  exists l. cbv beta.
  destruct Ha as (P & S & E & T & I & C & F & L & X & A).
  destruct Hb as (P' & S' & E' & T' & I' & C' & F' & L' & X' & A').
  simpl in *.
  split; [|split].
  - unfold Appends; simpl. repeat split; auto; lia.
  - unfold Appends; simpl. repeat split; auto; lia.
  - exact Hflag.
Qed.

Lemma functionCallback_alike (children : Writer -> Writer) :
  Alike children ->
  Alike (fun w2 : Writer =>
           set_functionNestCount
             (_functionNestCount
                (children
                   (set_functionNestCount (_functionNestCount w2 + 1) w2)) - 1)
             (children
                (set_functionNestCount (_functionNestCount w2 + 1) w2))).
Proof.
  intros Hch a b Hab.
  assert (H1 : SamePlace (set_functionNestCount (_functionNestCount a + 1) a)
                         (set_functionNestCount (_functionNestCount b + 1) b)).
  { destruct Hab as (I & C & F & T & E).
    unfold SamePlace; simpl. repeat split; congruence. }
  destruct (Hch _ _ H1) as (l & Ha & Hb & Hflag).
  exists l. cbv beta.
  destruct Ha as (P & S & E & T & I & C & F & L & X & A).
  destruct Hb as (P' & S' & E' & T' & I' & C' & F' & L' & X' & A').
  simpl in *.
  split; [|split].
  - unfold Appends; simpl. repeat split; auto; lia.
  - unfold Appends; simpl. repeat split; auto; lia.
  - exact Hflag.
Qed.

(** An accepted function logs its decorators, its header, whatever its
    suite logs, and one empty line. *)
Lemma visitFunction_frame (children : Writer -> Writer)
    (f : FunctionNode ExpressionNode) (w : Writer) (ls : list (Z * string)) :
  _functionNestCount w = 0 ->
  isPublicName (nameToken_value (fn_name f)) = true ->
  (let wh := _emitLine (functionLine f)
               (_emitDecorators (fn_decorators f) (set_emittedSuite true w)) in
   Appends wh
     (_emitSuite
        (fun w2 : Writer =>
           set_functionNestCount
             (_functionNestCount
                (children
                   (set_functionNestCount (_functionNestCount w2 + 1) w2)) - 1)
             (children
                (set_functionNestCount (_functionNestCount w2 + 1) w2)))
        wh) ls) ->
  Appends w (snd (visitFunction children f w))
    (decoratorLines (_indentAmount w) (fn_decorators f)
     ++ (_indentAmount w, functionLine f) :: ls
     ++ [(_indentAmount w, "")])
  /\ _emittedSuite (snd (visitFunction children f w)) = true.
Proof.
  intros Hnest Hpub Hs. unfold visitFunction.
  unfold isPublicName in Hpub. rewrite Hnest, <- andb_assoc, Hpub.
  cbv zeta in *. simpl snd.
  pose proof (header_appends (fn_decorators f) (functionLine f) w) as Hh.
  set (wh := _emitLine (functionLine f)
               (_emitDecorators (fn_decorators f) (set_emittedSuite true w)))
    in *.
  set (cb := fun w2 : Writer =>
               set_functionNestCount
                 (_functionNestCount
                    (children
                       (set_functionNestCount (_functionNestCount w2 + 1) w2)) - 1)
                 (children
                    (set_functionNestCount (_functionNestCount w2 + 1) w2)))
    in *.
  set (ws := _emitSuite cb wh) in *.
  pose proof (Appends_emitLine "" ws) as Hb.
  assert (Iws : _indentAmount ws = _indentAmount w).
  { rewrite (Appends_indent _ _ _ Hs). exact (Appends_indent _ _ _ Hh). }
  rewrite Iws in Hb.
  split.
  - pose proof (Appends_trans _ _ _ _ _ (Appends_trans _ _ _ _ _ Hh Hs) Hb)
      as HT.
    repeat rewrite <- app_assoc in HT. exact HT.
  - change (_emittedSuite ws = true). unfold ws.
    rewrite emittedSuite_emitSuite.
    destruct (Appends_emitDecorators (fn_decorators f) (set_emittedSuite true w))
      as [_ Hdf].
    exact Hdf.
Qed.

Lemma walkChildren_alike (children : list Node) :
  Forall (fun n => Alike (walk n)) children -> Alike (walkChildren children).
Proof.
  induction 1 as [|n rest Hn _ IH]; intros a b Hab.
  - exists []. repeat split; try apply Appends_refl. now left.
  - rewrite !walkChildren_cons.
    destruct (Hn a b Hab) as (l1 & A1 & B1 & F1).
    destruct (IH (walk n a) (walk n b) (SamePlace_after _ _ _ _ _ _ Hab A1 B1))
      as (l2 & A2 & B2 & F2).
    exists (l1 ++ l2)%list.
    split; [exact (Appends_trans _ _ _ _ _ A1 A2)|].
    split; [exact (Appends_trans _ _ _ _ _ B1 B2)|].
    destruct F2 as [[Fa Fb]|[Fa Fb]]; [|right; auto].
    destruct F1 as [[Ga Gb]|[Ga Gb]]; [left|right]; split; congruence.
Qed.

Lemma walk_alike (node : Node) : Alike (walk node).
Proof.
  induction node as [c suite IH|f suite IH|i|i|children IH]
    using ParseNode_ind; intros a b Hab.
  - rewrite !walk_class.
    destruct (isPublicName (nameToken_value (cls_name c))) eqn:Hpub.
    + pose proof (header_appends (cls_decorators c) (classLine c) a) as Ha.
      pose proof (header_appends (cls_decorators c) (classLine c) b) as Hb.
      destruct (emitSuite_alike _ _ _
                  (classCallback_alike _ (walkChildren_alike suite IH))
                  (SamePlace_after _ _ _ _ _ _ Hab Ha Hb))
        as (ls & Sa & Sb).
      destruct (visitClass_frame (walkChildren suite) c a ls Hpub Sa)
        as [Ra Fa].
      destruct (visitClass_frame (walkChildren suite) c b ls Hpub Sb)
        as [Rb Fb].
      assert (Hi : _indentAmount a = _indentAmount b) by apply Hab.
      rewrite <- Hi in Rb.
      eexists. split; [exact Ra|]. split; [exact Rb|]. right; auto.
    + rewrite !visitClass_rejected by exact Hpub.
      exists []. repeat split; try apply Appends_refl. now left.
  - rewrite !walk_function.
    assert (Hf : _functionNestCount a = _functionNestCount b) by apply Hab.
    destruct (Z.eq_dec (_functionNestCount a) 0) as [Hn|Hn];
      [destruct (isPublicName (nameToken_value (fn_name f))) eqn:Hpub|].
    + pose proof (header_appends (fn_decorators f) (functionLine f) a) as Ha.
      pose proof (header_appends (fn_decorators f) (functionLine f) b) as Hb.
      destruct (emitSuite_alike _ _ _
                  (functionCallback_alike _ (walkChildren_alike suite IH))
                  (SamePlace_after _ _ _ _ _ _ Hab Ha Hb))
        as (ls & Sa & Sb).
      destruct (visitFunction_frame (walkChildren suite) f a ls Hn Hpub Sa)
        as [Ra Fa].
      assert (Hn' : _functionNestCount b = 0) by congruence.
      destruct (visitFunction_frame (walkChildren suite) f b ls Hn' Hpub Sb)
        as [Rb Fb].
      assert (Hi : _indentAmount a = _indentAmount b) by apply Hab.
      rewrite <- Hi in Rb.
      eexists. split; [exact Ra|]. split; [exact Rb|]. right; auto.
    + rewrite !visitFunction_rejected by (right; exact Hpub).
      exists []. repeat split; try apply Appends_refl. now left.
    + rewrite !visitFunction_rejected by (left; congruence).
      exists []. repeat split; try apply Appends_refl. now left.
  - rewrite !walk_import. unfold visitImport.
    destruct Hab as (I & C & F & T & E). rewrite <- C, <- F.
    destruct (_ || _); simpl snd.
    + exists []. repeat split; try apply Appends_refl. now left.
    + eexists. split; [apply Appends_emitLine|].
      split; [rewrite I; apply Appends_emitLine|]. now left.
  - rewrite !walk_importFrom. unfold visitImportFrom.
    destruct Hab as (I & C & F & T & E). rewrite <- C, <- F.
    destruct (_ || _); simpl snd.
    + exists []. repeat split; try apply Appends_refl. now left.
    + eexists. split; [apply Appends_emitLine|].
      split; [rewrite I; apply Appends_emitLine|]. now left.
  - rewrite !walk_other. now apply walkChildren_alike.
Qed.

(** X12: the lines a traversal logs depend on the indentation, the two
    counters and the formatting, and on nothing else in the writer: not on
    the text already in the buffer, not on the suite flag.  So [write],
    which does not reset the buffer, called on a used writer whose
    indentation and counters are back at zero, appends to the text it finds
    the full text of a fresh run; that concatenation is what it hands to
    [fs.writeFileSync] and, where the call does not throw, what the
    destination then holds. *)
Theorem write_appends_a_fresh_run
    (w : Writer) (parseResults : ParseResults ExpressionNode)
    (fs fs0 : FileSystem) :
  getParseResults (_sourceFile w) = Some parseResults ->
  _indentAmount w = 0 ->
  _classNestCount w = 0 ->
  _functionNestCount w = 0 ->
  exists w' outcome fresh outcomeFresh,
    write w fs = Some (w', outcome)
    /\ write (newTypeStubWriter (_typingsPath w) (_sourceFile w)) fs0
       = Some (fresh, outcomeFresh)
    /\ _typeStubText w' = _typeStubText w ++ _typeStubText fresh
    /\ emitLog w' = (emitLog w ++ emitLog fresh)%list
    /\ outcome
       = writeFileSync (_typingsPath w)
           (_typeStubText w ++ _typeStubText fresh) fs
    /\ (forall fs', outcome = Some fs' ->
                    readFile fs' (_typingsPath w)
                    = Some (_typeStubText w ++ _typeStubText fresh)).
Proof.
  intros Hpr Hi Hc Hf. unfold write. simpl _sourceFile. rewrite Hpr.
  set (le := predominantLineEndSequence parseResults).
  set (tab := predominantTabSequence parseResults).
  set (a0 := set_formatting le tab w).
  set (b0 := set_formatting le tab
               (newTypeStubWriter (_typingsPath w) (_sourceFile w))).
  assert (H0 : SamePlace a0 b0).
  { unfold SamePlace; simpl. repeat split; congruence. }
  pose proof (Appends_emitHeaderDocString a0) as Ha.
  pose proof (Appends_emitHeaderDocString b0) as Hb.
  change (_indentAmount a0) with (_indentAmount w) in Ha.
  change (_indentAmount b0) with 0 in Hb. rewrite Hi in Ha.
  destruct (walk_alike (parseTree parseResults) _ _
              (SamePlace_after _ _ _ _ _ _ H0 Ha Hb))
    as (l & Wa & Wb & _).
  pose proof (Appends_trans _ _ _ _ _ Ha Wa) as Ra.
  pose proof (Appends_trans _ _ _ _ _ Hb Wb) as Rb.
  do 4 eexists. split; [reflexivity|]. split; [reflexivity|].
  pose proof (Appends_text _ _ _ Ra) as Ta.
  pose proof (Appends_text _ _ _ Rb) as Tb.
  pose proof (Appends_log _ _ _ Ra) as La.
  pose proof (Appends_log _ _ _ Rb) as Lb.
  change (_typeStubText a0) with (_typeStubText w) in Ta.
  change (_typeStubText b0) with "" in Tb.
  change (emitLog a0) with (emitLog w) in La.
  change (emitLog b0) with (@nil (Z * string)) in Lb.
  change (_tab b0) with (_tab a0) in Tb.
  change (_lineEnd b0) with (_lineEnd a0) in Tb.
  simpl append in Tb. simpl app in Lb.
  split; [now rewrite Ta, Tb|]. split; [now rewrite La, Lb|].
  unfold _writeFile.
  destruct Ra as (P & _). rewrite P. simpl _typingsPath.
  rewrite Ta, Tb.
  split; [reflexivity|].
  intros fs' Hfs. exact (proj1 (proj2 (writeFileSync_stores _ _ _ _ Hfs))).
Qed.

(** ** Function bodies *)




(** ** Siblings *)

Lemma linesOf_log (children : list Node) (w : Writer) (l : list (Z * string)) :
  emitLog (walkChildren children w) = (emitLog w ++ l)%list ->
  linesOf children w = l.
Proof.
  intros H. unfold linesOf. rewrite H.
  rewrite skipn_app, skipn_all, Nat.sub_diag. reflexivity.
Qed.

(** X14: statements are rendered independently of their siblings and in
    source order: the lines of a sequence of statements are the lines of its
    first part followed by the lines of the rest, each taken from the same
    starting writer; what was rendered before does not change what comes
    after. *)
Theorem siblings_render_in_order (first rest : list Node) (w : Writer) :
  linesOf (first ++ rest) w = (linesOf first w ++ linesOf rest w)%list
  /\ emitLog (walkChildren (first ++ rest) w)
     = (emitLog w ++ linesOf first w ++ linesOf rest w)%list.
Proof.
  destruct (walkChildren_emits_all first w) as [l1 [A1 _]].
  assert (HS : SamePlace (walkChildren first w) w).
  { destruct A1 as (_ & _ & E & T & I & C & F & _).
    unfold SamePlace. auto. }
  assert (HA : forall a b : Writer, SamePlace a b ->
             exists l, Appends a (walkChildren rest a) l
                       /\ Appends b (walkChildren rest b) l).
  { intros a b Hab.
    destruct (walkChildren_alike rest
                (proj2 (Forall_forall _ _) (fun n _ => walk_alike n)) a b Hab)
      as (l & Ha & Hb & _).
    exists l. auto. }
  destruct (HA _ _ HS) as (l2 & A2 & B2).
  pose proof (Appends_log _ _ _ (Appends_trans _ _ _ _ _ A1 A2)) as L.
  rewrite <- walkChildren_app in L.
  rewrite (linesOf_log first w l1 (Appends_log _ _ _ A1)).
  rewrite (linesOf_log rest w l2 (Appends_log _ _ _ B2)).
  split; [now apply linesOf_log | exact L].
Qed.

(** ** Headers *)

(** X15: a header line can be read back: two class headers that are the
    same text name the same class, two function headers that are the same
    text name the same function and agree on [async], and no class header
    is a function header. *)
Theorem headers_determine_names
    (c c' : ClassNode ExpressionNode) (f f' : FunctionNode ExpressionNode) :
  isIdentifier (nameToken_value (cls_name c)) = true ->
  isIdentifier (nameToken_value (cls_name c')) = true ->
  isIdentifier (nameToken_value (fn_name f)) = true ->
  isIdentifier (nameToken_value (fn_name f')) = true ->
  (classLine c = classLine c' ->
   nameToken_value (cls_name c) = nameToken_value (cls_name c'))
  /\ (functionLine f = functionLine f' ->
      nameToken_value (fn_name f) = nameToken_value (fn_name f')
      /\ isAsync f = isAsync f')
  /\ classLine c <> functionLine f.
Proof.
  intros Hc Hc' Hf Hf'. split; [|split].
  - destruct (classLine_form c) as (d & r & Hd & ->).
    destruct (classLine_form c') as (d' & r' & Hd' & ->).
    intros E. apply append_inj_l in E.
    exact (identifier_prefix_unique _ _ _ _ _ _ Hc Hc' Hd Hd' E).
  - destruct (functionLine_form f) as (r & ->).
    destruct (functionLine_form f') as (r' & ->).
    destruct (isAsync f), (isAsync f'); intros E; try discriminate E;
      apply append_inj_l in E;
      (split; [|reflexivity]);
      exact (identifier_prefix_unique _ _ _ _ _ _ Hf Hf'
               (or_introl eq_refl) (or_introl eq_refl) E).
  - destruct (classLine_form c) as (d & r & _ & ->).
    destruct (functionLine_form f) as (r' & ->).
    destruct (isAsync f); discriminate.
Qed.

End FurtherProperties.

(** * The further properties on the sample inputs *)

Lemma rejected_function_is_skipped_witness :
  pyIsPrivateName "__private" = true
  /\ walk (FunctionN (plainFunction "__private" []) nestedBody)
          (sampleWriter sampleModule)
     = sampleWriter sampleModule.
Proof.
  split; [reflexivity|].
  exact (proj1 (proj2 (rejected_function_is_skipped
                         (collaborators := pyCollaborators)
                         (plainFunction "__private" []) nestedBody []
                         (sampleWriter sampleModule)
                         (or_introl eq_refl)))).
Defined.


Lemma nested_imports_are_erased_witness :
  0 <= _classNestCount (sampleWriter sampleModule)
  /\ walk (ClassN (plainClass "Shape") filteredBody) (sampleWriter sampleModule)
     = walk (ClassN (plainClass "Shape") (flat_map eraseImports filteredBody))
            (sampleWriter sampleModule).
Proof.
  split; [simpl; lia|].
  exact (proj1 (nested_imports_are_erased (collaborators := pyCollaborators)
                  (plainClass "Shape") filteredBody
                  (plainFunction "area" []) []
                  {| imp_list := [] |}
                  {| from_module := wildcardModule; isWildcardImport := true;
                     from_imports := [] |}
                  (sampleWriter sampleModule) ltac:(simpl; lia))).
Defined.

Lemma module_imports_in_order_witness :
  _classNestCount (sampleWriter sampleModule) = 0
  /\ _functionNestCount (sampleWriter sampleModule) = 0
  /\ emitLog (walkChildren (map ImportN sampleImports)
                           (sampleWriter sampleModule))
     = [(0, "import os"); (0, "import pkg.base as base")].
Proof.
  repeat (split; [reflexivity|]).
  exact (proj1 (module_imports_in_order (collaborators := pyCollaborators)
                  sampleImports (sampleWriter sampleModule) eq_refl eq_refl)).
Defined.

Lemma printModuleName_injective_witness :
  isModuleName wildcardModule = true
  /\ _printModuleName wildcardModule = "..pkg.base"
  /\ (_printModuleName wildcardModule
      = _printModuleName {| leadingDots := 2;
                            nameParts := [nm "pkg"; nm "base"] |} ->
      wildcardModule
      = {| leadingDots := 2; nameParts := [nm "pkg"; nm "base"] |}).
Proof.
  split; [reflexivity|].
  destruct (printModuleName_injective wildcardModule
              {| leadingDots := 2; nameParts := [nm "pkg"; nm "base"] |}
              eq_refl eq_refl) as [HF HI].
  split; [exact HF | exact HI].
Defined.

Lemma class_inside_function_is_rendered_witness :
  0 < _functionNestCount writerInFunction
  /\ isPublicName (collaborators := pyCollaborators) "Local" = true
  /\ forallb isDroppedInFunction hiddenBody = true
  /\ emitLog (walk (ClassN (plainClass "Local") hiddenBody) writerInFunction)
     = [(1, "class Local:"); (2, "..."); (1, ""); (1, "")].
Proof.
  repeat (split; [reflexivity|]).
  exact (class_inside_function_is_rendered (collaborators := pyCollaborators)
           (plainClass "Local") hiddenBody writerInFunction
           eq_refl eq_refl eq_refl).
Defined.


Lemma class_header_agrees_on_plain_arguments_witness :
  Forall (fun arg : ArgumentNode string => argumentCategory arg = ArgSimple)
         (cls_arguments shapeClass)
  /\ classLine shapeClass = "class Shape(Base, metaclass=Meta):".
Proof.
  assert (H : Forall (fun arg : ArgumentNode string =>
                        argumentCategory arg = ArgSimple)
                     (cls_arguments shapeClass))
    by (repeat constructor).
  split; [exact H|].
  exact (proj1 (class_header_agrees_on_plain_arguments
                  (collaborators := pyCollaborators)
                  shapeClass starArgument H)).
Defined.

Lemma write_appends_a_fresh_run_witness :
  _indentAmount usedWriter = 0
  /\ _classNestCount usedWriter = 0
  /\ _functionNestCount usedWriter = 0
  /\ exists w' outcome fresh outcomeFresh,
       write usedWriter emptyFs = Some (w', outcome)
       /\ write (newTypeStubWriter (_typingsPath usedWriter)
                                   (_sourceFile usedWriter)) emptyFs
          = Some (fresh, outcomeFresh)
       /\ _typeStubText w' = _typeStubText usedWriter ++ _typeStubText fresh
       /\ emitLog w' = (emitLog usedWriter ++ emitLog fresh)%list
       /\ outcome
          = writeFileSync (_typingsPath usedWriter)
              (_typeStubText usedWriter ++ _typeStubText fresh) emptyFs
       /\ (forall fs', outcome = Some fs' ->
                       readFile fs' (_typingsPath usedWriter)
                       = Some (_typeStubText usedWriter
                               ++ _typeStubText fresh)).
Proof.
  repeat (split; [reflexivity|]).
  exact (write_appends_a_fresh_run (collaborators := pyCollaborators)
           usedWriter
           {| parseTree := sampleModule;
              predominantLineEndSequence := String "010" "";
              predominantTabSequence := "  " |}
           emptyFs emptyFs eq_refl eq_refl eq_refl eq_refl).
Defined.


Lemma headers_determine_names_witness :
  isIdentifier "Shape" = true
  /\ isIdentifier "area" = true
  /\ (classLine shapeClass = classLine (plainClass "Shape") -> "Shape" = "Shape")
  /\ classLine shapeClass
     <> functionLine (plainFunction "area" [simpleParam "self"]).
Proof.
  split; [reflexivity|]. split; [reflexivity|].
  destruct (headers_determine_names (collaborators := pyCollaborators)
              shapeClass (plainClass "Shape")
              (plainFunction "area" [simpleParam "self"])
              (plainFunction "area" [])
              eq_refl eq_refl eq_refl eq_refl) as (H1 & _ & H3).
  split; [exact H1 | exact H3].
Defined.
